(** * related.fields: field constructors, their metadata, and the
      convert-then-validate pipeline of a field

    A shallow embedding of [src/related/fields.py].  Python objects are an
    inductive universe [value]; dictionaries that the code shares by
    reference live in a store of dict objects; the functions of Python's
    standard library that the code calls ([Decimal], [dict.update], ...)
    are embedded next to the code that calls them. *)

From Stdlib Require Import ZArith NArith List String Ascii Bool Lia.
From stdpp Require Import base option gmap strings list fin_maps.

#[local] Set Warnings "-register-all".

Local Open Scope string_scope.
Local Open Scope Z_scope.

(** ** Python values *)

(** A Python [float]: a binary floating point number [(-1)^s * m * 2^e],
    a signed zero, a signed infinity or a NaN. *)
Inductive pyfloat : Type :=
| FZero (s : bool)
| FInf (s : bool)
| FNaN
| FFinite (s : bool) (m : positive) (e : Z).

(** [decimal.Decimal]: sign, coefficient and exponent
    ([(-1)^s * coef * 10^exp]), a signed infinity, or a quiet or signaling
    NaN with its diagnostic payload. *)
Inductive Decimal : Type :=
| DFinite (sign : bool) (coef : N) (exp : Z)
| DInf (sign : bool)
| DNaN (sign : bool) (signaling : bool) (diag : N).

Record Date : Type := mkDate { year : Z; month : Z; day : Z }.
Record Time : Type :=
  mkTime { hour : Z; minute : Z; second : Z; microsecond : Z }.
Record DateTime : Type := mkDateTime { dt_date : Date; dt_time : Time }.

(** [urllib.parse.ParseResult] *)
Record ParseResult : Type := mkParseResult {
  scheme : string; netloc : string; path : string;
  params : string; query : string; fragment : string }.

(** The classes that [isinstance] is asked about in [fields.py]. *)
Inductive pytype : Type :=
| TObject | TBool | TInt | TFloat | TStr | TDecimal
| TDate | TDateTime | TTime | TUUID | TParseResult
| TTypedSequence | TTypedSet | TTypedMapping
| TModel (name : string).

(** [cls] arguments are a class or the name of one. *)
Inductive cls_ref : Type :=
| ClsName (name : string)
| ClsObj (t : pytype).

Inductive value : Type :=
| VNone
| VBool (b : bool)
| VInt (z : Z)
| VFloat (f : pyfloat)
| VStr (s : string)
| VDecimal (d : Decimal)
| VDate (d : Date)
| VDateTime (d : DateTime)
| VTime (t : Time)
| VUUID (u : N)
| VUrl (u : ParseResult)
| VList (items : list value)
| VTuple (items : list value)
| VSet (items : list value)
| VDict (entries : list (value * value))
| VInstance (cls : string) (attrs : list (string * value))
| VTypedSequence (cls : cls_ref) (items : list value)
| VTypedSet (cls : cls_ref) (items : list value)
| VTypedMapping (cls : cls_ref) (child_key : string)
                (entries : list (value * value)).

(** ** Errors (the taxonomy of the pipeline) *)

Inductive pyexc : Type :=
| TypeError | ValueError | InvalidOperation | AttributeError.

Inductive error : Type :=
| MissingRequiredField
| ConversionError (e : pyexc)
| ValidationError (e : pyexc).

Inductive result (A : Type) : Type :=
| Ok (a : A)
| Err (e : error).
Arguments Ok {A} a.
Arguments Err {A} e.

Definition rbind {A B} (r : result A) (k : A -> result B) : result B :=
  match r with
  | Ok a => k a
  | Err e => Err e
  end.

#[global] Instance result_ret : MRet result := fun A a => Ok a.
#[global] Instance result_bind : MBind result := fun A B k r => rbind r k.

Definition raises {A} (r : result A) : Prop :=
  exists e, r = Err e.

Definition raises_ConversionError {A} (r : result A) : Prop :=
  exists e, r = Err (ConversionError e).

(** ** [decimal.Decimal(x)] *)

Module DecimalCtor.

(** The digits [0] to [9].  The strings here are strings of 8-bit
    characters; [Decimal] also reads the decimal digits of other
    scripts, which such a string does not have. *)
Definition is_digit (c : ascii) : bool :=
  let n := N_of_ascii c in ((48 <=? n) && (n <=? 57))%N.

(** [str.strip()] removes these (ASCII) characters; the white space
    beyond ASCII that it also removes is left out. *)
Definition is_space (c : ascii) : bool :=
  let n := N_of_ascii c in
  (((9 <=? n) && (n <=? 13)) || ((28 <=? n) && (n <=? 32)))%N.

Definition to_lower (c : ascii) : ascii :=
  let n := N_of_ascii c in
  if ((65 <=? n) && (n <=? 90))%N then ascii_of_N (n + 32) else c.

Fixpoint lstrip (l : list ascii) : list ascii :=
  match l with
  | c :: l' => if is_space c then lstrip l' else l
  | [] => []
  end.

Definition strip (l : list ascii) : list ascii :=
  rev (lstrip (rev (lstrip l))).

Definition remove_underscores (l : list ascii) : list ascii :=
  List.filter (fun c => negb (Ascii.eqb c "_")) l.

(** The longest prefix of digits, and the rest. *)
Fixpoint span_digits (l : list ascii) : list ascii * list ascii :=
  match l with
  | c :: l' =>
      if is_digit c
      then let '(ds, rest) := span_digits l' in (c :: ds, rest)
      else ([], l)
  | [] => ([], [])
  end.

Definition digit_val (c : ascii) : N := (N_of_ascii c - 48)%N.

Definition digits_to_N (ds : list ascii) : N :=
  fold_left (fun acc c => (10 * acc + digit_val c)%N) ds 0%N.

(** [(?P<sign>[-+])?] *)
Definition take_sign (l : list ascii) : bool * list ascii :=
  match l with
  | "-"%char :: l' => (true, l')
  | "+"%char :: l' => (false, l')
  | _ => (false, l)
  end.

(** [(E(?P<exp>[-+]?\d+))?\Z]: an optional exponent and the end of the
    string.  The exponent is not bounded here; [Decimal] refuses one
    beyond the limits of its context. *)
Definition parse_exponent (l : list ascii) : option Z :=
  match l with
  | [] => Some 0
  | c :: l' =>
      if Ascii.eqb (to_lower c) "e"
      then let '(neg, l'') := take_sign l' in
           match span_digits l'' with
           | (((_ :: _) as ds), []) =>
               let n := Z.of_N (digits_to_N ds) in
               Some (if neg then - n else n)
           | _ => None
           end
      else None
  end.

(** [(?=\d|\.\d)(?P<int>\d* )(\.(?P<frac>\d* ))?] followed by the
    exponent. *)
Definition parse_number (sign : bool) (l : list ascii) : option Decimal :=
  let '(intpart, rest) := span_digits l in
  let '(fracpart, has_digit, rest') :=
    match rest with
    | "."%char :: r =>
        let '(fr, r') := span_digits r in
        (fr, match intpart, fr with [], [] => false | _, _ => true end, r')
    | _ => ([], match intpart with [] => false | _ => true end, rest)
    end in
  if has_digit : bool
  then match parse_exponent rest' with
       | Some e =>
           Some (DFinite sign (digits_to_N (intpart ++ fracpart))
                         (e - Z.of_nat (length fracpart)))
       | None => None
       end
  else None.

Definition list_ascii_eqb (a b : list ascii) : bool :=
  String.eqb (string_of_list_ascii a) (string_of_list_ascii b).

Definition starts_with (p l : list ascii) : option (list ascii) :=
  if list_ascii_eqb p (firstn (length p) l)
  then Some (skipn (length p) l) else None.

(** [Inf(inity)?\Z] and [(?P<signal>s)?NaN(?P<diag>\d* )\Z], ignoring
    case. *)
Definition parse_special (sign : bool) (l : list ascii) : option Decimal :=
  let low := List.map to_lower l in
  if list_ascii_eqb low (list_ascii_of_string "inf")
     || list_ascii_eqb low (list_ascii_of_string "infinity")
  then Some (DInf sign)
  else
    let '(signal, body) :=
      match low with
      | "s"%char :: r => (true, r)
      | _ => (false, low)
      end in
    match starts_with (list_ascii_of_string "nan") body with
    | Some diag =>
        match span_digits diag with
        | (ds, []) => Some (DNaN sign signal (digits_to_N ds))
        | _ => None
        end
    | None => None
    end.

(** [Decimal(s)] for a string: strip the white space, drop the
    underscores, match the numeric-string syntax. *)
Definition from_string (s : string) : option Decimal :=
  let l := remove_underscores (strip (list_ascii_of_string s)) in
  let '(sign, body) := take_sign l in
  match parse_number sign body with
  | Some d => Some d
  | None => parse_special sign body
  end.

Definition from_int (z : Z) : Decimal :=
  DFinite (z <? 0) (Z.abs_N z) 0.

(** How often 2 divides [m], at most [fuel] times; and what is left. *)
Fixpoint strip_twos (fuel : nat) (m : positive) : nat * positive :=
  match fuel, m with
  | S fuel', xO m' =>
      let '(k, r) := strip_twos fuel' m' in (S k, r)
  | _, _ => (O, m)
  end.

(** [Decimal.from_float]: the exact value of the float.  With
    [n / 2^k] its ratio in lowest terms, the result is
    [n * 5^k] with exponent [-k]. *)
Definition from_float (f : pyfloat) : Decimal :=
  match f with
  | FZero s => DFinite s 0 0
  | FInf s => DInf s
  | FNaN => DNaN false false 0
  | FFinite s m e =>
      if 0 <=? e
      then DFinite s (Npos m * 2 ^ Z.to_N e) 0
      else
        let '(t, n) := strip_twos (Z.to_nat (- e)) m in
        let k := (- e) - Z.of_nat t in
        DFinite s (Npos n * 5 ^ Z.to_N k) (- k)
  end.

Definition digit_of_value (v : value) : option N :=
  match v with
  | VInt z => if (0 <=? z) && (z <=? 9) then Some (Z.to_N z) else None
  | VBool b => Some (if b then 1 else 0)%N
  | _ => None
  end.

Fixpoint digits_of_values (acc : N) (vs : list value) : option N :=
  match vs with
  | [] => Some acc
  | v :: vs' =>
      match digit_of_value v with
      | Some d => digits_of_values (10 * acc + d)%N vs'
      | None => None
      end
  end.

Definition sign_of_value (v : value) : option bool :=
  match v with
  | VInt 0 => Some false
  | VInt 1 => Some true
  | VBool b => Some b
  | _ => None
  end.

Definition digit_items (v : value) : option (list value) :=
  match v with
  | VTuple ds | VList ds => Some ds
  | _ => None
  end.

(** [Decimal((sign, digits, exponent))]: three components, a sign of 0
    or 1, a tuple of digits, and an integer exponent or one of the
    letters [F], [n], [N]. *)
Definition from_tuple (items : list value) : result Decimal :=
  match items with
  | [s; ds; e] =>
      match sign_of_value s, digit_items ds with
      | Some sg, Some dl =>
          match digits_of_values 0%N dl, e with
          | Some c, VInt x => Ok (DFinite sg c x)
          | Some c, VBool b => Ok (DFinite sg c (if b then 1 else 0))
          | Some c, VStr "F" => Ok (DInf sg)
          | Some c, VStr "n" => Ok (DNaN sg false c)
          | Some c, VStr "N" => Ok (DNaN sg true c)
          | _, _ => Err (ConversionError ValueError)
          end
      | _, _ => Err (ConversionError ValueError)
      end
  | _ => Err (ConversionError ValueError)
  end.

(** [Decimal(value)]: a string is parsed ([InvalidOperation] when it is
    not a numeric string), an [int] (so also a [bool]), a [Decimal] and
    a [float] convert exactly, a 3-tuple or list is read as
    (sign, digits, exponent); anything else is a [TypeError]. *)
Definition Decimal_new (x : value) : result Decimal :=
  match x with
  | VStr s =>
      match from_string s with
      | Some d => Ok d
      | None => Err (ConversionError InvalidOperation)
      end
  | VInt z => Ok (from_int z)
  | VBool b => Ok (from_int (if b then 1 else 0))
  | VDecimal d => Ok d
  | VTuple items | VList items => from_tuple items
  | VFloat f => Ok (from_float f)
  | _ => Err (ConversionError TypeError)
  end.

End DecimalCtor.

(** [d == 0] for a decimal. *)
Definition decimal_is_zero (d : Decimal) : bool :=
  match d with
  | DFinite _ c _ => (c =? 0)%N
  | _ => false
  end.

(** What [a == b] gives: a truth value, or an exception. *)
Inductive comparison : Type :=
| CmpBool (b : bool)
| CmpRaises (e : pyexc).

Definition Decimal_is_nan (d : Decimal) : bool :=
  match d with
  | DNaN _ _ _ => true
  | _ => false
  end.

(** [a == b] on two decimals ([Decimal.__eq__]): a signaling NaN on
    either side raises [InvalidOperation]; a quiet NaN equals nothing,
    itself included; two infinities are equal when they have the same
    sign; two finite numbers are compared by value, the two zeros being
    equal. *)
Definition Decimal_eq (a b : Decimal) : comparison :=
  match a, b with
  | DNaN _ true _, _ | _, DNaN _ true _ => CmpRaises InvalidOperation
  | DNaN _ false _, _ | _, DNaN _ false _ => CmpBool false
  | DInf s, DInf t => CmpBool (Bool.eqb s t)
  | DInf _, DFinite _ _ _ | DFinite _ _ _, DInf _ => CmpBool false
  | DFinite s c e, DFinite t c' e' =>
      if ((c =? 0) && (c' =? 0))%N then CmpBool true
      else
        CmpBool
          (Bool.eqb s t
           && (if e' <=? e
               then (c * 10 ^ Z.to_N (e - e') =? c')%N
               else (c =? c' * 10 ^ Z.to_N (e' - e))%N))
  end.

(** ** Built-ins of the language *)

(** [isinstance(v, t)]; [bool] is a subclass of [int] and [datetime] one
    of [date]. *)
Definition isinstance (v : value) (t : pytype) : bool :=
  match t, v with
  | TObject, _ => true
  | TBool, VBool _ => true
  | TInt, (VInt _ | VBool _) => true
  | TFloat, VFloat _ => true
  | TStr, VStr _ => true
  | TDecimal, VDecimal _ => true
  | TDate, (VDate _ | VDateTime _) => true
  | TDateTime, VDateTime _ => true
  | TTime, VTime _ => true
  | TUUID, VUUID _ => true
  | TParseResult, VUrl _ => true
  | TTypedSequence, VTypedSequence _ _ => true
  | TTypedSet, VTypedSet _ _ => true
  | TTypedMapping, VTypedMapping _ _ _ => true
  | TModel n, VInstance c _ => String.eqb n c
  | _, _ => false
  end.

#[global] Instance pyfloat_eq_dec : EqDecision pyfloat.
Proof. solve_decision. Defined.
#[global] Instance Decimal_eq_dec : EqDecision Decimal.
Proof. solve_decision. Defined.
#[global] Instance Date_eq_dec : EqDecision Date.
Proof. solve_decision. Defined.
#[global] Instance Time_eq_dec : EqDecision Time.
Proof. solve_decision. Defined.
#[global] Instance DateTime_eq_dec : EqDecision DateTime.
Proof. solve_decision. Defined.
#[global] Instance ParseResult_eq_dec : EqDecision ParseResult.
Proof. solve_decision. Defined.
#[global] Instance pytype_eq_dec : EqDecision pytype.
Proof. solve_decision. Defined.
#[global] Instance cls_ref_eq_dec : EqDecision cls_ref.
Proof. solve_decision. Defined.

Fixpoint value_eq_dec (a b : value) {struct a} : {a = b} + {a <> b}.
Proof.
  decide equality; try solve [ apply (decide (_ = _)) ].
  all: try (apply (List.list_eq_dec value_eq_dec)).
  all: apply List.list_eq_dec; decide equality; apply (decide (_ = _)).
Defined.

#[global] Instance value_eq : EqDecision value := value_eq_dec.

(** Equality of two keys of a dict, or of two elements of a set.  Keys
    are compared by structure: that Python counts numbers of different
    types equal ([1 == 1.0 == True]) is left out, the keys of a typed
    mapping being the values of one field of one element type. *)
Definition key_eq (a b : value) : bool := bool_decide (a = b).

Fixpoint hashable (v : value) : bool :=
  match v with
  | VList _ | VSet _ | VDict _
  | VTypedSequence _ _ | VTypedSet _ _ | VTypedMapping _ _ _ => false
  | VTuple items => forallb hashable items
  | _ => true
  end.

(** [getattr(obj, name)] *)
Fixpoint assoc_str (name : string) (attrs : list (string * value))
  : option value :=
  match attrs with
  | [] => None
  | (n, v) :: attrs' =>
      if String.eqb n name then Some v else assoc_str name attrs'
  end.

Definition getattr (obj : value) (name : string) : result value :=
  match obj with
  | VInstance _ attrs =>
      match assoc_str name attrs with
      | Some v => Ok v
      | None => Err (ConversionError AttributeError)
      end
  | _ => Err (ConversionError AttributeError)
  end.

(** What [for item in v] yields; [None] when [v] is not iterable.  A dict
    and a typed mapping yield their keys, a string its characters. *)
Definition iterate (v : value) : option (list value) :=
  match v with
  | VList l | VTuple l | VSet l
  | VTypedSequence _ l | VTypedSet _ l => Some l
  | VDict kvs | VTypedMapping _ _ kvs => Some (List.map fst kvs)
  | VStr s =>
      Some (List.map (fun c => VStr (String c EmptyString))
                     (list_ascii_of_string s))
  | _ => None
  end.

(** [d[k] = v] on an insertion-ordered dict: an equal key keeps its
    place and gets the new value, a new key goes last. *)
Fixpoint od_insert (k v : value) (d : list (value * value))
  : list (value * value) :=
  match d with
  | [] => [(k, v)]
  | (k', v') :: d' =>
      if key_eq k' k then (k', v) :: d' else (k', v') :: od_insert k v d'
  end.

Fixpoint od_lookup (k : value) (d : list (value * value)) : option value :=
  match d with
  | [] => None
  | (k', v') :: d' => if key_eq k' k then Some v' else od_lookup k d'
  end.

(** [s.add(x)] on a set kept in insertion order. *)
Definition set_add (s : list value) (x : value) : list value :=
  if existsb (fun y => key_eq y x) s then s else s ++ [x].

(** Monadic map over a list, left to right, stopping at the first
    error. *)
Fixpoint mapM_result {A B} (f : A -> result B) (l : list A)
  : result (list B) :=
  match l with
  | [] => Ok []
  | x :: l' =>
      y ← f x;
      ys ← mapM_result f l';
      Ok (y :: ys)
  end.

(** ** What the code takes from outside

    The functions of Python's standard library whose results the
    embedding does not compute, the class registry that resolves a class
    given by name, the record construction of the model assembler, and
    the stream of random values behind [uuid4]. *)
Class PyEnv : Type := {
  (** [datetime.strptime(s, formatter)] *)
  strptime : string -> string -> option DateTime;
  (** [urlparse(s)] *)
  urlparse : string -> option ParseResult;
  (** [UUID(s)] *)
  UUID_of_string : string -> option N;
  (** [int(x)] and [float(x)] for an [x] that is neither [None] nor
      already of that type *)
  py_int : value -> option Z;
  py_float : value -> option pyfloat;
  (** [str(x)] *)
  py_str : value -> string;
  (** [re.match(pattern, s) is not None] *)
  re_match : string -> string -> bool;
  (** the class a name stands for, once the models are defined *)
  resolve_name : string -> pytype;
  (** the construction of an instance of class [t] from a raw value, by
      the model assembler (for a model) or the class itself *)
  construct : pytype -> value -> result value;
  (** the [i]-th random value that the process draws; [uuid4] takes
      its 128 low bits *)
  uuid_stream : nat -> N
}.

(** ** Defaults, validators and the descriptor *)

(** A zero-argument callable used as a default factory. *)
Inductive callable : Type :=
| uuid4
| Lambda (v : value).

(** An object passed where the code expects a default: a plain value or
    a callable. *)
Inductive pyobj : Type :=
| Obj (v : value)
| Callable (f : callable).

(** The [default] argument of a field constructor; [NOTHING] is
    [attr.NOTHING], no default given. *)
Inductive default_arg : Type :=
| NOTHING
| Default (o : pyobj).

Inductive DefaultPolicy : Type :=
| NoDefault
| Fixed (v : value)
| Factory (f : callable).

(** One link of a validator chain. *)
Inductive check : Type :=
| CheckRequired
| CheckInstanceOf (t : pytype)
| CheckRegex (pattern : string).

Definition Validator : Type := list check.
Definition Converter : Type := value -> result value.

(** The [type] argument of [attrib]: a class, or (in [SequenceField])
    the resolved default itself. *)
Inductive type_arg : Type :=
| TypeCls (c : cls_ref)
| TypeDefault (d : DefaultPolicy).

(** Dict objects are shared by reference: a [loc] names one, the store
    holds their contents. *)
Definition loc : Type := nat.
Abbreviation pydict := (gmap string value).
Abbreviation heap := (gmap loc (gmap string value)).

(** What [attr.ib(...)] returns.  An argument that a call leaves out has
    [attr.ib]'s own default: no validator, no converter, [repr] and [cmp]
    true, no type. *)
Record Attribute : Type := attrib {
  a_default : DefaultPolicy;
  a_validator : option Validator;
  a_converter : option Converter;
  a_repr : bool;
  a_cmp : bool;
  a_metadata : loc;
  a_type : option type_arg
}.

(** Modelled from the spec: [_init_fields.init_default] is not part of
    the sources at hand.  Section 4.1: a required field has no default;
    an optional one without a caller default takes the default of its
    kind (the empty container, null, or the kind's own factory); a
    callable given as default is a factory; any other default is
    fixed. *)
Definition init_default (required : bool) (default : default_arg)
    (optional_default : pyobj) : DefaultPolicy :=
  if required then NoDefault
  else
    match default with
    | NOTHING =>
        match optional_default with
        | Obj v => Fixed v
        | Callable f => Factory f
        end
    | Default (Callable f) => Factory f
    | Default (Obj v) => Fixed v
    end.

(** Modelled from the spec: [_init_fields.init_validator] is not part of
    the sources at hand.  Sections 3 and 4.3: a chain in the order
    required, type, extra; the required check is the first link exactly
    when the field is required. *)
Definition init_validator (required : bool) (cls : pytype)
    (additional_validators : list check) : Validator :=
  ((if required then [CheckRequired] else [])
   ++ [CheckInstanceOf cls] ++ additional_validators)%list.

Module validators.
(** Modelled from the spec: [validators.regex] is not part of the
    sources at hand.  Section 4.3: the value must match the pattern. *)
Definition regex (pattern : string) : check := CheckRegex pattern.
End validators.

Module types.
(** The defaults that the docstrings of [DateField], [DateTimeField]
    and [TimeField] give for [formatter]. *)
Definition DEFAULT_DATE_FORMAT : string := "%Y-%m-%d".
Definition DEFAULT_DATETIME_FORMAT : string := "ISO_FORMAT".
Definition DEFAULT_TIME_FORMAT : string := "%H:%M:%S".
End types.

Section Pipeline.
Context {env : PyEnv}.

Definition resolve_cls (cls : cls_ref) : pytype :=
  match cls with
  | ClsName n => resolve_name n
  | ClsObj t => t
  end.

(** The [w]-th UUID that [uuid4] makes: a value of 128 bits. *)
Definition uuid_draw (w : nat) : N := (uuid_stream w mod 2 ^ 128)%N.

(** Calling a default factory; [w] counts the random values drawn so
    far. *)
Definition call (f : callable) (w : nat) : value * nat :=
  match f with
  | uuid4 => (VUUID (uuid_draw w), S w)
  | Lambda v => (v, w)
  end.

(** *** Validation *)

(** Modelled from the spec: the validators are not part of the sources
    at hand.  Section 4.3: the required check rejects an absent (null)
    value; the type check and the extra predicate constrain a value
    that is present. *)
Definition run_check (c : check) (x : value) : result unit :=
  match c, x with
  | CheckRequired, VNone => Err (ValidationError TypeError)
  | CheckRequired, _ => Ok tt
  | _, VNone => Ok tt
  | CheckInstanceOf t, _ =>
      if isinstance x t then Ok tt else Err (ValidationError TypeError)
  | CheckRegex p, VStr s =>
      if re_match p s then Ok tt else Err (ValidationError ValueError)
  | CheckRegex p, _ => Err (ValidationError TypeError)
  end.

(** The chain is a conjunction; the first failing link is the error. *)
Fixpoint validate (V : Validator) (x : value) : result unit :=
  match V with
  | [] => Ok tt
  | c :: V' => _ ← run_check c x; validate V' x
  end.

End Pipeline.

(** ** The converters of [converters.py] *)

Module converters.
Section WithEnv.
Context {env : PyEnv}.

(** Modelled from the spec: [converters.int_if_not_none] is not part
    of the sources at hand.  Section 4.2: numeric, numeric string,
    null passthrough; anything else is rejected. *)
Definition int_if_not_none : Converter := fun value =>
  match value with
  | VNone => Ok VNone
  | VInt z => Ok (VInt z)
  | VBool b => Ok (VInt (if b then 1 else 0))
  | _ =>
      match py_int value with
      | Some z => Ok (VInt z)
      | None => Err (ConversionError ValueError)
      end
  end.

(** Modelled from the spec: [converters.float_if_not_none] is not
    part of the sources at hand.  Section 4.2, as for the integer. *)
Definition float_if_not_none : Converter := fun value =>
  match value with
  | VNone => Ok VNone
  | VFloat f => Ok (VFloat f)
  | _ =>
      match py_float value with
      | Some f => Ok (VFloat f)
      | None => Err (ConversionError ValueError)
      end
  end.

(** Modelled from the spec: [converters.str_if_not_none] is not part
    of the sources at hand.  Section 4.2: any stringifiable, null
    passthrough. *)
Definition str_if_not_none : Converter := fun value =>
  match value with
  | VNone => Ok VNone
  | VStr s => Ok (VStr s)
  | _ => Ok (VStr (py_str value))
  end.

(** Modelled from the spec: [converters.to_date_field],
    [to_datetime_field] and [to_time_field] are not part of the
    sources at hand.  Section 4.2: a string is parsed with the
    formatter and rejected when it does not parse; a native value is
    kept. *)
Definition to_date_field (formatter : string) : Converter := fun value =>
  match value with
  | VStr s =>
      match strptime s formatter with
      | Some dt => Ok (VDate (dt_date dt))
      | None => Err (ConversionError ValueError)
      end
  | _ => Ok value
  end.

Definition to_datetime_field (formatter : string) : Converter :=
  fun value =>
  match value with
  | VStr s =>
      match strptime s formatter with
      | Some dt => Ok (VDateTime dt)
      | None => Err (ConversionError ValueError)
      end
  | _ => Ok value
  end.

Definition to_time_field (formatter : string) : Converter := fun value =>
  match value with
  | VStr s =>
      match strptime s formatter with
      | Some dt => Ok (VTime (dt_time dt))
      | None => Err (ConversionError ValueError)
      end
  | _ => Ok value
  end.

(** Modelled from the spec: [converters.str_to_url] is not part of
    the sources at hand.  Section 4.2: string or parsed-URL value;
    an unparseable string is rejected. *)
Definition str_to_url : Converter := fun value =>
  match value with
  | VStr s =>
      match urlparse s with
      | Some u => Ok (VUrl u)
      | None => Err (ConversionError ValueError)
      end
  | _ => Ok value
  end.

(** Modelled from the spec: [converters.str_to_uuid] is not part of
    the sources at hand.  Section 4.2: string or native UUID value;
    a malformed string is rejected.  Sections 3 and 5 have every
    converter stateless and leave generation to the default factory,
    which is where [UUIDField] passes [uuid4]; so the fresh identifier
    of the table's null case is taken to be that factory's, and the
    converter hands null on.  [str_to_uuid_generating] is the other
    reading. *)
Definition str_to_uuid : Converter := fun value =>
  match value with
  | VStr s =>
      match UUID_of_string s with
      | Some u => Ok (VUUID u)
      | None => Err (ConversionError ValueError)
      end
  | _ => Ok value
  end.

(** Modelled from the spec: the table of section 4.2 read to the
    letter, a UUID converter that makes a fresh identifier of a null
    input; it draws from the random values, so it takes and returns the
    count of the draws. *)
Definition str_to_uuid_generating (raw : value) (w : nat)
  : result value * nat :=
  match raw with
  | VNone => (Ok (VUUID (uuid_draw w)), S w)
  | _ => (str_to_uuid raw, w)
  end.

(** Modelled from the spec: the conversion of one element or child
    by its class is not part of the sources at hand.  Section 4.2:
    an already-typed instance is kept, any other raw value is handed
    to the construction of the class, whose errors propagate. *)
Definition to_model (cls : cls_ref) (raw : value) : result value :=
  let t := resolve_cls cls in
  if isinstance raw t then Ok raw else construct t raw.

Definition to_child_field (cls : cls_ref) : Converter := to_model cls.

(** Modelled from the spec: the typed collections of [types.py] are
    not part of the sources at hand.  Section 4.4: every element
    goes through the element type's converter, then its validator;
    the first failure is the failure of the whole construction. *)
Definition element (cls : cls_ref) (raw : value) : result value :=
  c ← to_model cls raw;
  _ ← validate [CheckInstanceOf (resolve_cls cls)] c;
  Ok c.

(** Section 4.4: iterate in order, convert and validate, append. *)
Definition TypedSequence (cls : cls_ref) (raw : value) : result value :=
  match iterate raw with
  | Some items =>
      args ← mapM_result (element cls) items;
      Ok (VTypedSequence cls args)
  | None => Err (ConversionError TypeError)
  end.

Fixpoint set_fill (items acc : list value) : result (list value) :=
  match items with
  | [] => Ok acc
  | x :: items' =>
      if hashable x then set_fill items' (set_add acc x)
      else Err (ConversionError TypeError)
  end.

(** Section 4.4: as the sequence, into a de-duplicated set; equal
    canonical elements collapse without an error. *)
Definition TypedSet (cls : cls_ref) (raw : value) : result value :=
  match iterate raw with
  | Some items =>
      args ← mapM_result (element cls) items;
      s ← set_fill args [];
      Ok (VTypedSet cls s)
  | None => Err (ConversionError TypeError)
  end.

(** The raw children: the values of a mapping, or the items of a
    plain iterable. *)
Definition children_of (raw : value) : option (list value) :=
  match raw with
  | VDict kvs | VTypedMapping _ _ kvs => Some (List.map snd kvs)
  | _ => iterate raw
  end.

(** Section 4.4: convert and validate each raw child, read the
    attribute named [child_key] off the canonical child, insert
    (derived key, child); a later entry with an equal key overwrites
    the earlier one. *)
Fixpoint mapping_fill (cls : cls_ref) (child_key : string)
    (children : list value) (kwargs : list (value * value))
  : result (list (value * value)) :=
  match children with
  | [] => Ok kwargs
  | raw :: children' =>
      child ← element cls raw;
      k ← getattr child child_key;
      if hashable k
      then mapping_fill cls child_key children' (od_insert k child kwargs)
      else Err (ConversionError TypeError)
  end.

Definition TypedMapping (cls : cls_ref) (child_key : string)
    (raw : value) : result value :=
  match children_of raw with
  | Some children =>
      kwargs ← mapping_fill cls child_key children [];
      Ok (VTypedMapping cls child_key kwargs)
  | None => Err (ConversionError TypeError)
  end.

(** Modelled from the spec: [converters.to_sequence_field],
    [to_set_field] and [to_mapping_field] are not part of the
    sources at hand.  Section 4.2: an iterable or mapping of raw
    elements becomes the typed collection. *)
Definition to_sequence_field (cls : cls_ref) : Converter :=
  TypedSequence cls.

Definition to_set_field (cls : cls_ref) : Converter :=
  TypedSet cls.

Definition to_mapping_field (cls : cls_ref) (child_key : string)
  : Converter :=
  TypedMapping cls child_key.

End WithEnv.
End converters.

(** ** The field constructors of [fields.py] *)

(** [metadata.update(preset)]: every entry of [preset], in order, is
    assigned into the dict. *)
Definition dict_update (metadata : pydict) (preset : list (string * value))
  : pydict :=
  foldl (fun m kv => <[kv.1 := kv.2]> m) metadata preset.

(** [_field_metadata(metadata, **preset)].  With no mapping given a new
    dict is allocated; otherwise the dict that the caller passed is the
    one updated, in place, and returned. *)
Definition _field_metadata (metadata : option loc)
    (preset : list (string * value)) (h : heap) : loc * heap :=
  let '(metadata, h) :=
    match metadata with
    | None => let l := fresh (dom h) in (l, <[l := ∅]> h)
    | Some l => (l, h)
    end in
  (metadata, <[metadata := dict_update (h !!! metadata) preset]> h).

(** The [key] argument as a Python object. *)
Definition key_value (key : option string) : value :=
  match key with
  | Some k => VStr k
  | None => VNone
  end.

Section Constructors.
Context {env : PyEnv}.

Definition BooleanField (default : default_arg) (required repr cmp : bool)
    (key : option string) (metadata : option loc) (h : heap)
  : Attribute * heap :=
  let default := init_default required default (Obj VNone) in
  let validator := init_validator required TBool [] in
  let '(metadata, h) := _field_metadata metadata [("key", key_value key)] h in
  ({| a_default := default; a_validator := Some validator;
      a_converter := None; a_repr := repr; a_cmp := cmp;
      a_metadata := metadata; a_type := Some (TypeCls (ClsObj TBool)) |}, h).

Definition ChildField (cls : cls_ref) (default : default_arg)
    (required repr cmp : bool) (key : option string)
    (metadata : option loc) (h : heap) : Attribute * heap :=
  let default := init_default required default (Obj VNone) in
  let converter := converters.to_child_field cls in
  let validator :=
    init_validator required
      (match cls with ClsName _ => TObject | ClsObj c => c end) [] in
  let '(metadata, h) := _field_metadata metadata [("key", key_value key)] h in
  ({| a_default := default; a_validator := Some validator;
      a_converter := Some converter; a_repr := repr; a_cmp := cmp;
      a_metadata := metadata; a_type := Some (TypeCls cls) |}, h).

Definition DateField (formatter : string) (default : default_arg)
    (required repr cmp : bool) (key : option string)
    (metadata : option loc) (h : heap) : Attribute * heap :=
  let default := init_default required default (Obj VNone) in
  let validator := init_validator required TDate [] in
  let converter := converters.to_date_field formatter in
  let '(metadata, h) :=
    _field_metadata metadata
      [("formatter", VStr formatter); ("key", key_value key)] h in
  ({| a_default := default; a_validator := Some validator;
      a_converter := Some converter; a_repr := repr; a_cmp := cmp;
      a_metadata := metadata; a_type := None |}, h).

Definition DateTimeField (formatter : string) (default : default_arg)
    (required repr cmp : bool) (key : option string)
    (metadata : option loc) (h : heap) : Attribute * heap :=
  let default := init_default required default (Obj VNone) in
  let validator := init_validator required TDateTime [] in
  let converter := converters.to_datetime_field formatter in
  let '(metadata, h) :=
    _field_metadata metadata
      [("formatter", VStr formatter); ("key", key_value key)] h in
  ({| a_default := default; a_validator := Some validator;
      a_converter := Some converter; a_repr := repr; a_cmp := cmp;
      a_metadata := metadata;
      a_type := Some (TypeCls (ClsObj TDateTime)) |}, h).

Definition TimeField (formatter : string) (default : default_arg)
    (required repr cmp : bool) (key : option string)
    (metadata : option loc) (h : heap) : Attribute * heap :=
  let default := init_default required default (Obj VNone) in
  let validator := init_validator required TTime [] in
  let converter := converters.to_time_field formatter in
  let '(metadata, h) :=
    _field_metadata metadata
      [("formatter", VStr formatter); ("key", key_value key)] h in
  ({| a_default := default; a_validator := Some validator;
      a_converter := Some converter; a_repr := repr; a_cmp := cmp;
      a_metadata := metadata; a_type := None |}, h).

Definition FloatField (default : default_arg) (required repr cmp : bool)
    (key : option string) (metadata : option loc) (h : heap)
  : Attribute * heap :=
  let default := init_default required default (Obj VNone) in
  let validator := init_validator required TFloat [] in
  let '(metadata, h) := _field_metadata metadata [("key", key_value key)] h in
  ({| a_default := default; a_validator := Some validator;
      a_converter := Some converters.float_if_not_none;
      a_repr := repr; a_cmp := cmp;
      a_metadata := metadata; a_type := Some (TypeCls (ClsObj TFloat)) |}, h).

Definition IntegerField (default : default_arg) (required repr cmp : bool)
    (key : option string) (metadata : option loc) (h : heap)
  : Attribute * heap :=
  let default := init_default required default (Obj VNone) in
  let validator := init_validator required TInt [] in
  let '(metadata, h) := _field_metadata metadata [("key", key_value key)] h in
  ({| a_default := default; a_validator := Some validator;
      a_converter := Some converters.int_if_not_none;
      a_repr := repr; a_cmp := cmp;
      a_metadata := metadata; a_type := Some (TypeCls (ClsObj TInt)) |}, h).

(** The [OrderedDict()] that the call makes for the default is held as
    the empty mapping it is, a value; the store keeps the metadata
    dicts only. *)
Definition MappingField (cls : cls_ref) (child_key : string)
    (default : default_arg) (required repr : bool) (key : option string)
    (metadata : option loc) (h : heap) : Attribute * heap :=
  let default := init_default required default (Obj (VDict [])) in
  let converter := converters.to_mapping_field cls child_key in
  let validator := init_validator required TTypedMapping [] in
  let '(metadata, h) := _field_metadata metadata [("key", key_value key)] h in
  ({| a_default := default; a_validator := Some validator;
      a_converter := Some converter; a_repr := repr; a_cmp := true;
      a_metadata := metadata; a_type := None |}, h).

Definition RegexField (regex : string) (default : default_arg)
    (required repr cmp : bool) (key : option string)
    (metadata : option loc) (h : heap) : Attribute * heap :=
  let default := init_default required default (Obj VNone) in
  let validator :=
    init_validator required TStr [validators.regex regex] in
  let '(metadata, h) := _field_metadata metadata [("key", key_value key)] h in
  ({| a_default := default; a_validator := Some validator;
      a_converter := Some converters.str_if_not_none;
      a_repr := repr; a_cmp := cmp;
      a_metadata := metadata; a_type := None |}, h).

Definition SequenceField (cls : cls_ref) (default : default_arg)
    (required repr : bool) (key : option string)
    (metadata : option loc) (h : heap) : Attribute * heap :=
  let default := init_default required default (Obj (VList [])) in
  let converter := converters.to_sequence_field cls in
  let validator := init_validator required TTypedSequence [] in
  let '(metadata, h) := _field_metadata metadata [("key", key_value key)] h in
  ({| a_default := default; a_validator := Some validator;
      a_converter := Some converter; a_repr := repr; a_cmp := true;
      a_metadata := metadata; a_type := Some (TypeDefault default) |}, h).

Definition SetField (cls : cls_ref) (default : default_arg)
    (required repr : bool) (key : option string)
    (metadata : option loc) (h : heap) : Attribute * heap :=
  let default := init_default required default (Obj (VSet [])) in
  let converter := converters.to_set_field cls in
  let validator := init_validator required TTypedSet [] in
  let '(metadata, h) := _field_metadata metadata [("key", key_value key)] h in
  ({| a_default := default; a_validator := Some validator;
      a_converter := Some converter; a_repr := repr; a_cmp := true;
      a_metadata := metadata; a_type := None |}, h).

Definition StringField (default : default_arg) (required repr cmp : bool)
    (key : option string) (metadata : option loc) (h : heap)
  : Attribute * heap :=
  let default := init_default required default (Obj VNone) in
  let validator := init_validator required TStr [] in
  let '(metadata, h) := _field_metadata metadata [("key", key_value key)] h in
  ({| a_default := default; a_validator := Some validator;
      a_converter := Some converters.str_if_not_none;
      a_repr := repr; a_cmp := cmp;
      a_metadata := metadata; a_type := None |}, h).

Definition URLField (default : default_arg) (required repr cmp : bool)
    (key : option string) (metadata : option loc) (h : heap)
  : Attribute * heap :=
  let cls := TParseResult in
  let default := init_default required default (Obj VNone) in
  let validator := init_validator required cls [] in
  let '(metadata, h) := _field_metadata metadata [("key", key_value key)] h in
  ({| a_default := default; a_validator := Some validator;
      a_converter := Some converters.str_to_url;
      a_repr := repr; a_cmp := cmp;
      a_metadata := metadata; a_type := None |}, h).

Definition UUIDField (default : default_arg) (required repr cmp : bool)
    (key : option string) (metadata : option loc) (h : heap)
  : Attribute * heap :=
  let cls := TUUID in
  let default := init_default required default (Callable uuid4) in
  let validator := init_validator required cls [] in
  let '(metadata, h) := _field_metadata metadata [("key", key_value key)] h in
  ({| a_default := default; a_validator := Some validator;
      a_converter := Some converters.str_to_uuid;
      a_repr := repr; a_cmp := cmp;
      a_metadata := metadata; a_type := None |}, h).

(** The converter is [lambda x: Decimal(x)]. *)
Definition DecimalField (default : default_arg) (required repr cmp : bool)
    (key : option string) (metadata : option loc) (h : heap)
  : Attribute * heap :=
  let default := init_default required default (Obj VNone) in
  let validator := init_validator required TDecimal [] in
  let '(metadata, h) := _field_metadata metadata [("key", key_value key)] h in
  ({| a_default := default; a_validator := Some validator;
      a_converter :=
        Some (fun x => d ← DecimalCtor.Decimal_new x; Ok (VDecimal d));
      a_repr := repr; a_cmp := cmp;
      a_metadata := metadata; a_type := None |}, h).

End Constructors.

(** ** Any constructor call *)

(** The fifteen constructors, each with its own positional arguments. *)
Inductive kind : Type :=
| KBoolean
| KChild (cls : cls_ref)
| KDate (formatter : string)
| KDateTime (formatter : string)
| KTime (formatter : string)
| KFloat
| KInteger
| KMapping (cls : cls_ref) (child_key : string)
| KRegex (regex : string)
| KSequence (cls : cls_ref)
| KSet (cls : cls_ref)
| KString
| KURL
| KUUID
| KDecimal.

(** The keyword arguments that the constructors share.  [MappingField],
    [SequenceField] and [SetField] have no [cmp]. *)
Record kwargs : Type := mk_kwargs {
  kw_default : default_arg;
  kw_required : bool;
  kw_repr : bool;
  kw_cmp : bool;
  kw_key : option string;
  kw_metadata : option loc
}.

(** The presets that a constructor passes to [_field_metadata]. *)
Definition preset_of (k : kind) (key : option string)
  : list (string * value) :=
  match k with
  | KDate formatter | KDateTime formatter | KTime formatter =>
      [("formatter", VStr formatter); ("key", key_value key)]
  | _ => [("key", key_value key)]
  end.

Section Instantiation.
Context {env : PyEnv}.

Definition make_field (k : kind) (a : kwargs) (h : heap)
  : Attribute * heap :=
  let '(mk_kwargs default required repr cmp key metadata) := a in
  match k with
  | KBoolean => BooleanField default required repr cmp key metadata h
  | KChild cls => ChildField cls default required repr cmp key metadata h
  | KDate f => DateField f default required repr cmp key metadata h
  | KDateTime f => DateTimeField f default required repr cmp key metadata h
  | KTime f => TimeField f default required repr cmp key metadata h
  | KFloat => FloatField default required repr cmp key metadata h
  | KInteger => IntegerField default required repr cmp key metadata h
  | KMapping cls ck =>
      MappingField cls ck default required repr key metadata h
  | KRegex r => RegexField r default required repr cmp key metadata h
  | KSequence cls => SequenceField cls default required repr key metadata h
  | KSet cls => SetField cls default required repr key metadata h
  | KString => StringField default required repr cmp key metadata h
  | KURL => URLField default required repr cmp key metadata h
  | KUUID => UUIDField default required repr cmp key metadata h
  | KDecimal => DecimalField default required repr cmp key metadata h
  end.

(** *** One field of a model being instantiated

    The model assembler is outside [fields.py]; section 6 of the spec
    fixes what it does with a descriptor: the raw value, or the default
    when the raw value is absent, goes through the converter (when the
    descriptor has one) and the result through the validator. *)

(** Modelled from the spec: the assembler is not part of the sources
    at hand.  Sections 3 and 7: without a raw value a field with no
    default is a missing required field, a fixed default is taken as it
    is, a factory is invoked anew. *)
Definition raw_or_default (d : Attribute) (raw : option value) (w : nat)
  : result value * nat :=
  match raw with
  | Some v => (Ok v, w)
  | None =>
      match a_default d with
      | NoDefault => (Err MissingRequiredField, w)
      | Fixed v => (Ok v, w)
      | Factory f => let '(v, w') := call f w in (Ok v, w')
      end
  end.

Definition run_converter (d : Attribute) (v : value) : result value :=
  match a_converter d with
  | Some converter => converter v
  | None => Ok v
  end.

Definition run_validator (d : Attribute) (v : value) : result unit :=
  match a_validator d with
  | Some validator => validate validator v
  | None => Ok tt
  end.

(** Modelled from the spec: section 6,
    [value = converter(raw_or_default)] then [validator(value)]. *)
Definition instantiate_field (d : Attribute) (raw : option value)
    (w : nat) : result value * nat :=
  let '(r, w') := raw_or_default d raw w in
  (v ← r; c ← run_converter d v; _ ← run_validator d c; Ok c, w').

End Instantiation.

(** The metadata of a descriptor: the contents of the dict it refers
    to. *)
Definition metadata_of (d : Attribute) (h : heap) : pydict :=
  h !!! a_metadata d.

(** ** A concrete environment

    Used where a statement is evaluated on an input: names resolve to
    model classes, a model is constructed from a dict by taking its
    string-keyed entries as attributes, and the [i]-th random value is
    [i]. *)

Fixpoint attrs_of_entries (kvs : list (value * value))
  : list (string * value) :=
  match kvs with
  | [] => []
  | (VStr n, v) :: kvs' => (n, v) :: attrs_of_entries kvs'
  | _ :: kvs' => attrs_of_entries kvs'
  end.

Definition sample_construct (t : pytype) (raw : value) : result value :=
  match t, raw with
  | TModel n, VDict kvs => Ok (VInstance n (attrs_of_entries kvs))
  | _, _ => Err (ConversionError TypeError)
  end.

Definition sample_env : PyEnv := {|
  strptime := fun _ _ => None;
  urlparse := fun s => Some (mkParseResult "" "" s "" "" "");
  UUID_of_string := fun _ => None;
  py_int := fun _ => None;
  py_float := fun _ => None;
  py_str := fun _ => "";
  re_match := fun _ _ => true;
  resolve_name := TModel;
  construct := sample_construct;
  uuid_stream := N.of_nat
|}.


(** ** What the claims are about *)

(** Both the converter and the validator of a descriptor are there. *)
Definition converter_and_validator_present (d : Attribute) : Prop :=
  a_converter d <> None /\ a_validator d <> None.

(** The metadata has an output key and an exclusion flag, neither of
    them null. *)
Definition metadata_surface_present (md : pydict) : Prop :=
  (exists v, md !! "key" = Some v /\ v <> VNone)
  /\ (exists v, md !! "exclude" = Some v /\ v <> VNone).

(** * Properties *)

(** ** The metadata of a descriptor *)

Lemma dict_update_cons (m : pydict) (n : string) (v : value)
    (preset : list (string * value)) :
  dict_update m ((n, v) :: preset) = dict_update (<[n := v]> m) preset.
Proof. reflexivity. Qed.

Lemma dict_update_lookup_other (preset : list (string * value)) :
  forall (m : pydict) (name : string),
    name ∉ preset.*1 -> dict_update m preset !! name = m !! name.
Proof.
  induction preset as [| [n v] preset IH]; intros m name Hnot.
  - reflexivity.
  - rewrite dict_update_cons, IH.
    + apply lookup_insert_ne. intros ->. apply Hnot. simpl. left.
    + intros Hin. apply Hnot. simpl. right. exact Hin.
Qed.

Lemma dict_update_lookup_preset (preset : list (string * value)) :
  forall (m : pydict) (name : string) (v : value),
    NoDup preset.*1 -> (name, v) ∈ preset ->
    dict_update m preset !! name = Some v.
Proof.
  induction preset as [| [n w] preset IH]; intros m name v Hnd Hin.
  - inversion Hin.
  - rewrite dict_update_cons. simpl in Hnd. apply NoDup_cons in Hnd.
    destruct Hnd as [Hfresh Hnd].
    apply elem_of_cons in Hin. destruct Hin as [Heq | Hin].
    + injection Heq as -> ->.
      rewrite dict_update_lookup_other by exact Hfresh.
      apply lookup_insert_eq.
    + apply IH; assumption.
Qed.

Lemma preset_of_names_NoDup (k : kind) (key : option string) :
  NoDup (preset_of k key).*1.
Proof.
  destruct k; simpl;
    repeat (apply NoDup_cons_2;
            [ rewrite ?elem_of_cons, ?elem_of_nil; intuition discriminate |]);
    apply NoDup_nil_2.
Qed.

Lemma preset_of_key (k : kind) (key : option string) :
  ("key", key_value key) ∈ preset_of k key.
Proof. destruct k; simpl; set_solver. Qed.

(** Every constructor hands its presets to [_field_metadata] and keeps
    the dict that comes back. *)
Lemma make_field_metadata {env : PyEnv} (k : kind) (a : kwargs) (h : heap) :
  (a_metadata (make_field k a h).1, (make_field k a h).2)
  = _field_metadata (kw_metadata a) (preset_of k (kw_key a)) h.
Proof.
  destruct a as [default required repr cmp key metadata].
  destruct k; simpl;
    unfold BooleanField, ChildField, DateField, DateTimeField, TimeField,
      FloatField, IntegerField, MappingField, RegexField, SequenceField,
      SetField, StringField, URLField, UUIDField, DecimalField;
    match goal with
    | |- context [_field_metadata ?m ?p ?h] =>
        destruct (_field_metadata m p h) as [l h']
    end; reflexivity.
Qed.

Lemma field_metadata_given (l : loc) (m : pydict)
    (preset : list (string * value)) (h : heap) :
  h !! l = Some m ->
  _field_metadata (Some l) preset h
  = (l, <[l := dict_update m preset]> h).
Proof.
  intros Hl. unfold _field_metadata.
  rewrite (lookup_total_correct h l m Hl). reflexivity.
Qed.

Lemma field_metadata_fresh (preset : list (string * value)) (h : heap) :
  _field_metadata None preset h
  = (fresh (dom h), <[fresh (dom h) := dict_update ∅ preset]> h).
Proof.
  unfold _field_metadata. rewrite lookup_total_insert_eq.
  rewrite insert_insert_eq. reflexivity.
Qed.

(** The metadata of the descriptor, when the caller gave a mapping. *)
Lemma metadata_of_given {env : PyEnv} (k : kind) (a : kwargs) (h : heap)
    (l : loc) (m : pydict) :
  kw_metadata a = Some l -> h !! l = Some m ->
  a_metadata (make_field k a h).1 = l
  /\ (make_field k a h).2
     = <[l := dict_update m (preset_of k (kw_key a))]> h.
Proof.
  intros Hmeta Hl.
  pose proof (make_field_metadata k a h) as E.
  rewrite Hmeta, (field_metadata_given l m _ h Hl) in E.
  injection E as E1 E2. split; assumption.
Qed.

(** The metadata of the descriptor, when the caller gave none. *)
Lemma metadata_of_fresh {env : PyEnv} (k : kind) (a : kwargs) (h : heap) :
  kw_metadata a = None ->
  a_metadata (make_field k a h).1 = fresh (dom h)
  /\ (make_field k a h).2
     = <[fresh (dom h) := dict_update ∅ (preset_of k (kw_key a))]> h.
Proof.
  intros Hmeta.
  pose proof (make_field_metadata k a h) as E.
  rewrite Hmeta, field_metadata_fresh in E.
  injection E as E1 E2. split; assumption.
Qed.

(** C1.  Whatever the constructor, when the caller supplies a metadata
    mapping: an entry of the caller under a name that the constructor
    does not preset is in the metadata of the descriptor, unchanged; a
    preset name carries the preset value, whatever the caller had put
    there; and the output key is the [key] argument. *)
Theorem caller_metadata_precedence {env : PyEnv} (k : kind) (a : kwargs)
    (h : heap) (l : loc) (m : pydict) :
  kw_metadata a = Some l ->
  h !! l = Some m ->
  let r := make_field k a h in
  let md := metadata_of r.1 r.2 in
  (forall name, name ∉ (preset_of k (kw_key a)).*1 ->
                md !! name = m !! name)
  /\ (forall name v, (name, v) ∈ preset_of k (kw_key a) ->
                     md !! name = Some v)
  /\ md !! "key" = Some (key_value (kw_key a)).
Proof.
  intros Hmeta Hl r md.
  destruct (metadata_of_given k a h l m Hmeta Hl) as [El Eh].
  assert (Emd : md = dict_update m (preset_of k (kw_key a))).
  { unfold md, metadata_of, r. rewrite El, Eh.
    apply lookup_total_insert_eq. }
  rewrite Emd. split; [| split].
  - intros name Hnot. apply dict_update_lookup_other; exact Hnot.
  - intros name v Hin.
    apply dict_update_lookup_preset; [apply preset_of_names_NoDup | exact Hin].
  - apply dict_update_lookup_preset;
      [apply preset_of_names_NoDup | apply preset_of_key].
Qed.

(** [DateField("%Y", key="date", metadata=m)] with
    [m = {"exclude": True, "formatter": "x"}]. *)
Lemma caller_metadata_precedence_witness :
  let a := mk_kwargs NOTHING true true true (Some "date") (Some 0%nat) in
  let m : pydict := <["exclude" := VBool true]> {["formatter" := VStr "x"]} in
  let h : heap := {[ 0%nat := m ]} in
  kw_metadata a = Some 0%nat
  /\ h !! 0%nat = Some m
  /\ let r := @make_field sample_env (KDate "%Y") a h in
     let md := metadata_of r.1 r.2 in
     (forall name, name ∉ (preset_of (KDate "%Y") (kw_key a)).*1 ->
                   md !! name = m !! name)
     /\ (forall name v, (name, v) ∈ preset_of (KDate "%Y") (kw_key a) ->
                        md !! name = Some v)
     /\ md !! "key" = Some (key_value (kw_key a)).
Proof.
  intros a m h. split; [reflexivity |]. split; [reflexivity |].
  apply (@caller_metadata_precedence sample_env (KDate "%Y") a h 0%nat m);
    reflexivity.
Defined.

(** C2, as stated, fails on [BooleanField()]: the call passes no
    converter to [attrib]. *)
Lemma BooleanField_has_no_converter :
  ~ converter_and_validator_present
      (BooleanField NOTHING true true true None None ∅).1.
Proof.
  intros [Hconv _]. apply Hconv. reflexivity.
Qed.

(** C2, amended.  Every descriptor has a validator; it has a converter
    unless it comes from [BooleanField], whose descriptor has none. *)
Theorem validator_present_converter_unless_boolean {env : PyEnv}
    (k : kind) (a : kwargs) (h : heap) :
  let d := (make_field k a h).1 in
  a_validator d <> None
  /\ (a_converter d = None <-> k = KBoolean).
Proof.
  destruct a as [default required repr cmp key metadata].
  destruct k; simpl;
    unfold BooleanField, ChildField, DateField, DateTimeField, TimeField,
      FloatField, IntegerField, MappingField, RegexField, SequenceField,
      SetField, StringField, URLField, UUIDField, DecimalField;
    match goal with
    | |- context [_field_metadata ?m ?p ?h] =>
        destruct (_field_metadata m p h) as [l h']
    end; simpl; (split; [discriminate | split; (discriminate || reflexivity)]).
Qed.

(** C3, as stated, fails on [StringField()], called with no key and no
    metadata: the entry under ["key"] is null and there is no entry
    under ["exclude"]. *)
Lemma StringField_default_metadata_surface :
  let r := @StringField sample_env NOTHING true true true None None ∅ in
  metadata_of r.1 r.2 !! "key" = Some VNone
  /\ metadata_of r.1 r.2 !! "exclude" = None
  /\ ~ metadata_surface_present (metadata_of r.1 r.2).
Proof.
  set (a := mk_kwargs NOTHING true true true None None).
  change (@StringField sample_env NOTHING true true true None None ∅)
    with (@make_field sample_env KString a ∅).
  intros r.
  destruct (@metadata_of_fresh sample_env KString a ∅ eq_refl) as [El Eh].
  assert (E : metadata_of r.1 r.2 = {["key" := VNone]}).
  { unfold metadata_of, r. rewrite El, Eh.
    rewrite lookup_total_insert_eq. reflexivity. }
  rewrite E. split; [| split].
  - apply lookup_singleton_eq.
  - apply lookup_singleton_ne. discriminate.
  - intros [[v [Hk Hv]] _]. rewrite lookup_singleton_eq in Hk.
    injection Hk as <-. apply Hv. reflexivity.
Qed.

(** C3, amended.  The metadata of every descriptor has an entry under
    ["key"], the [key] argument of the call, null when no key was
    passed; its entry under ["exclude"] is the one of the caller's
    mapping, and there is none when the caller's mapping has none or no
    mapping was passed. *)
Theorem metadata_key_entry_and_exclude {env : PyEnv} (k : kind) (a : kwargs)
    (h : heap) :
  (forall l, kw_metadata a = Some l -> is_Some (h !! l)) ->
  let r := make_field k a h in
  let md := metadata_of r.1 r.2 in
  r.2 !! a_metadata r.1 = Some md
  /\ md !! "key" = Some (key_value (kw_key a))
  /\ (kw_key a = None -> md !! "key" = Some VNone)
  /\ md !! "exclude"
     = match kw_metadata a with
       | Some l => (h !!! l) !! "exclude"
       | None => None
       end.
Proof.
  intros Hwf r md.
  assert (Hnot : "exclude" ∉ (preset_of k (kw_key a)).*1).
  { destruct k; simpl; rewrite ?elem_of_cons, ?elem_of_nil;
      intuition discriminate. }
  assert (Hkey : forall m : pydict,
             dict_update m (preset_of k (kw_key a)) !! "key"
             = Some (key_value (kw_key a))).
  { intros m. apply dict_update_lookup_preset;
      [apply preset_of_names_NoDup | apply preset_of_key]. }
  destruct (kw_metadata a) as [l |] eqn:Hmeta.
  - destruct (Hwf l eq_refl) as [m Hl].
    destruct (metadata_of_given k a h l m Hmeta Hl) as [El Eh].
    assert (Emd : md = dict_update m (preset_of k (kw_key a))).
    { unfold md, metadata_of, r. rewrite El, Eh.
      apply lookup_total_insert_eq. }
    split; [| rewrite Emd; split; [| split]].
    + unfold r in *. rewrite Emd, El, Eh. apply lookup_insert_eq.
    + apply Hkey.
    + intros Hnone. rewrite Hkey, Hnone. reflexivity.
    + rewrite dict_update_lookup_other by exact Hnot.
      rewrite (lookup_total_correct h l m Hl). reflexivity.
  - destruct (metadata_of_fresh k a h Hmeta) as [El Eh].
    assert (Emd : md = dict_update ∅ (preset_of k (kw_key a))).
    { unfold md, metadata_of, r. rewrite El, Eh.
      apply lookup_total_insert_eq. }
    split; [| rewrite Emd; split; [| split]].
    + unfold r in *. rewrite Emd, El, Eh. apply lookup_insert_eq.
    + apply Hkey.
    + intros Hnone. rewrite Hkey, Hnone. reflexivity.
    + rewrite dict_update_lookup_other by exact Hnot.
      apply lookup_empty.
Qed.

(** ** The caller's mapping is updated in place *)

(** A constructor that is given a mapping writes its presets into that
    very dict, and touches no other dict. *)
Lemma make_field_store {env : PyEnv} (k : kind) (a : kwargs) (h : heap)
    (l : loc) (m : pydict) :
  kw_metadata a = Some l ->
  h !! l = Some m ->
  (make_field k a h).2 !! l
  = Some (dict_update m (preset_of k (kw_key a)))
  /\ forall l', l' <> l -> (make_field k a h).2 !! l' = h !! l'.
Proof.
  intros Hmeta Hl.
  destruct (metadata_of_given k a h l m Hmeta Hl) as [_ ->]. split.
  - apply lookup_insert_eq.
  - intros l' Hne. apply lookup_insert_ne. congruence.
Qed.

(** C4.  The code at [m = {"exclude": True}],
    [StringField(key="a", metadata=m)] and then
    [StringField(key="b", metadata=m)]: after the first call the
    caller's dict has gained the entry ["key": "a"], so it is not what
    the caller passed; after the second call the metadata of the first
    descriptor, which is that same dict, says ["key": "b"]. *)
Lemma StringField_updates_the_callers_mapping :
  let m : pydict := {["exclude" := VBool true]} in
  let h : heap := {[ 0%nat := m ]} in
  let r1 := @StringField sample_env NOTHING true true true
              (Some "a") (Some 0%nat) h in
  let r2 := @StringField sample_env NOTHING true true true
              (Some "b") (Some 0%nat) r1.2 in
  r1.2 !! 0%nat = Some (<["key" := VStr "a"]> m)
  /\ r1.2 !! 0%nat <> h !! 0%nat
  /\ metadata_of r1.1 r1.2 !! "key" = Some (VStr "a")
  /\ metadata_of r1.1 r2.2 !! "key" = Some (VStr "b").
Proof.
  intros m h.
  set (a1 := mk_kwargs NOTHING true true true (Some "a") (Some 0%nat)).
  set (a2 := mk_kwargs NOTHING true true true (Some "b") (Some 0%nat)).
  change (@StringField sample_env NOTHING true true true
            (Some "a") (Some 0%nat) h)
    with (@make_field sample_env KString a1 h).
  intros r1.
  change (@StringField sample_env NOTHING true true true
            (Some "b") (Some 0%nat) r1.2)
    with (@make_field sample_env KString a2 r1.2).
  intros r2.
  assert (Hh : h !! 0%nat = Some m) by apply lookup_singleton_eq.
  destruct (@metadata_of_given sample_env KString a1 h 0%nat m eq_refl Hh)
    as [El1 Eh1].
  assert (H1 : r1.2 !! 0%nat = Some (<["key" := VStr "a"]> m)).
  { unfold r1. rewrite Eh1. apply lookup_insert_eq. }
  destruct (@metadata_of_given sample_env KString a2 r1.2 0%nat _ eq_refl H1)
    as [_ Eh2].
  split; [exact H1 |]. split; [| split].
  - rewrite H1, Hh. intros E. apply (inj Some) in E.
    apply (f_equal (fun d : pydict => d !! "key")) in E.
    rewrite lookup_insert_eq in E. unfold m in E.
    rewrite lookup_singleton_ne in E by discriminate. discriminate.
  - change (a_metadata r1.1 = 0%nat) in El1.
    unfold metadata_of. rewrite El1.
    rewrite (lookup_total_correct _ _ _ H1). apply lookup_insert_eq.
  - change (a_metadata r1.1 = 0%nat) in El1.
    unfold metadata_of. rewrite El1. unfold r2. rewrite Eh2.
    rewrite lookup_total_insert_eq. simpl. apply lookup_insert_eq.
Qed.

(** ** Instantiating a field *)

(** Unfolds a constructor call down to the descriptor it returns. *)
Ltac unfold_field :=
  unfold BooleanField, ChildField, DateField, DateTimeField, TimeField,
    FloatField, IntegerField, MappingField, RegexField, SequenceField,
    SetField, StringField, URLField, UUIDField, DecimalField;
  match goal with
  | |- context [_field_metadata ?m ?p ?h] =>
      destruct (_field_metadata m p h) as [? ?]
  end; cbn [fst snd a_default a_validator a_converter].



(** What the pipeline of a Boolean field answers on a raw value. *)
Definition boolean_outcome (required : bool) (raw : value) : result value :=
  match raw with
  | VBool b => Ok (VBool b)
  | VNone => if required then Err (ValidationError TypeError) else Ok VNone
  | _ => Err (ValidationError TypeError)
  end.

(** C6, as stated, fails on a null raw value given to an optional
    Boolean field: null is not a [bool], and it is accepted. *)
Lemma BooleanField_optional_accepts_null :
  let d := (BooleanField NOTHING false true true None None ∅).1 in
  isinstance VNone TBool = false
  /\ @instantiate_field sample_env d (Some VNone) 0%nat = (Ok VNone, 0%nat)
  /\ ~ raises (@instantiate_field sample_env d (Some VNone) 0%nat).1.
Proof.
  split; [reflexivity |]. split; [reflexivity |].
  intros [e He]. discriminate He.
Qed.

(** C6, amended.  A Boolean field declared with [required=False] and no
    default,
    instantiated with no raw value, has the value [None]; instantiated
    with a string it fails in validation (there is no converter that
    could coerce the string).  For any Boolean field, a raw [bool] is
    accepted as it is and a raw value that is neither a [bool] nor null
    is rejected; null, the absent value, is rejected exactly when the
    field is required. *)
Theorem BooleanField_pipeline {env : PyEnv} (repr cmp : bool)
    (key : option string) (metadata : option loc) (h : heap) (w : nat) :
  let d := (BooleanField NOTHING false repr cmp key metadata h).1 in
  instantiate_field d None w = (Ok VNone, w)
  /\ (forall s, instantiate_field d (Some (VStr s)) w
                = (Err (ValidationError TypeError), w))
  /\ forall default required raw,
       let d' := (BooleanField default required repr cmp key metadata h).1 in
       instantiate_field d' (Some raw) w = (boolean_outcome required raw, w)
       /\ (raw <> VNone -> isinstance raw TBool = false ->
           raises (instantiate_field d' (Some raw) w).1).
Proof.
  unfold_field. split; [reflexivity |]. split; [reflexivity |].
  intros default required raw. split.
  - destruct required, raw; reflexivity.
  - intros Hnone Hbool.
    destruct required, raw; try discriminate; try congruence;
      eexists; reflexivity.
Qed.

(** C7.  The converter of a Decimal field takes the float [0.0] to a
    decimal equal to zero and fails on the string ["abc"] with a
    conversion error, which is then the outcome of instantiating the
    field. *)
Theorem DecimalField_converter_scenario {env : PyEnv} (default : default_arg)
    (required repr cmp : bool) (key : option string)
    (metadata : option loc) (h : heap) (w : nat) :
  let d := (DecimalField default required repr cmp key metadata h).1 in
  (exists z, run_converter d (VFloat (FZero false)) = Ok (VDecimal z)
             /\ decimal_is_zero z = true)
  /\ run_converter d (VStr "abc") = Err (ConversionError InvalidOperation)
  /\ raises_ConversionError (run_converter d (VStr "abc"))
  /\ instantiate_field d (Some (VStr "abc")) w
     = (Err (ConversionError InvalidOperation), w).
Proof.
  unfold_field. split; [| split; [| split]].
  - exists (DFinite false 0 0). split; reflexivity.
  - reflexivity.
  - exists InvalidOperation. reflexivity.
  - reflexivity.
Qed.

(** C10.  The converter of a Decimal field is [Decimal(x)] on every
    input, null included.  So for a Decimal field declared with
    [required=False] and no default, whose default is null,
    instantiating without a raw value fails with the [TypeError] of
    [Decimal(None)]; the Integer, Float and String fields declared the
    same way yield [None], their converters passing null through. *)
Theorem DecimalField_has_no_null_passthrough {env : PyEnv} (repr cmp : bool)
    (key : option string) (metadata : option loc) (h : heap) (w : nat) :
  let d := (DecimalField NOTHING false repr cmp key metadata h).1 in
  (forall x, run_converter d x
             = (dec ← DecimalCtor.Decimal_new x; Ok (VDecimal dec)))
  /\ a_default d = Fixed VNone
  /\ run_converter d VNone = Err (ConversionError TypeError)
  /\ instantiate_field d None w = (Err (ConversionError TypeError), w)
  /\ (let i := (IntegerField NOTHING false repr cmp key metadata h).1 in
      run_converter i VNone = Ok VNone
      /\ instantiate_field i None w = (Ok VNone, w))
  /\ (let f := (FloatField NOTHING false repr cmp key metadata h).1 in
      run_converter f VNone = Ok VNone
      /\ instantiate_field f None w = (Ok VNone, w))
  /\ (let s := (StringField NOTHING false repr cmp key metadata h).1 in
      run_converter s VNone = Ok VNone
      /\ instantiate_field s None w = (Ok VNone, w)).
Proof.
  repeat split; unfold_field; reflexivity.
Qed.

(** ** Typed mappings *)

Lemma key_eq_true (a b : value) : key_eq a b = true <-> a = b.
Proof. unfold key_eq. apply bool_decide_eq_true. Qed.

Lemma key_eq_false (a b : value) : key_eq a b = false <-> a <> b.
Proof. unfold key_eq. apply bool_decide_eq_false. Qed.

(** A new key goes last. *)
Lemma od_insert_fresh (k v : value) (d : list (value * value)) :
  k ∉ d.*1 -> od_insert k v d = (d ++ [(k, v)])%list.
Proof.
  induction d as [| [k' v'] d IH]; intros Hnot; simpl.
  - reflexivity.
  - rewrite fmap_cons, not_elem_of_cons in Hnot. destruct Hnot as [Hne Hnot].
    destruct (key_eq k' k) eqn:E.
    + apply key_eq_true in E. exfalso. apply Hne. symmetry. exact E.
    + rewrite IH by exact Hnot. reflexivity.
Qed.

(** An assignment never changes the order of the keys already there,
    and adds the key at the end when it is new. *)
Lemma od_insert_keys (k v : value) (d : list (value * value)) :
  (od_insert k v d).*1
  = if bool_decide (k ∈ d.*1) then d.*1 else (d.*1 ++ [k])%list.
Proof.
  induction d as [| [k' v'] d IH]; simpl.
  - reflexivity.
  - destruct (key_eq k' k) eqn:E.
    + apply key_eq_true in E. subst k'.
      rewrite bool_decide_eq_true_2 by (apply elem_of_cons; left; reflexivity).
      reflexivity.
    + apply key_eq_false in E. rewrite fmap_cons, IH.
      destruct (decide (k ∈ d.*1)) as [Hin | Hnot].
      * rewrite !bool_decide_eq_true_2;
          [reflexivity | apply elem_of_cons; right; exact Hin | exact Hin].
      * rewrite !bool_decide_eq_false_2; [reflexivity | | exact Hnot].
        rewrite not_elem_of_cons. split; [congruence | exact Hnot].
Qed.

(** After [d[k] = v], the value under [k] is [v]: the later entry has
    overwritten whatever was there. *)
Lemma od_lookup_insert (k v : value) (d : list (value * value)) :
  od_lookup k (od_insert k v d) = Some v.
Proof.
  induction d as [| [k' v'] d IH]; simpl.
  - rewrite (proj2 (key_eq_true k k) eq_refl). reflexivity.
  - destruct (key_eq k' k) eqn:E; simpl; rewrite E; [reflexivity | exact IH].
Qed.

Lemma od_lookup_insert_ne (k k0 v : value) (d : list (value * value)) :
  k0 <> k -> od_lookup k0 (od_insert k v d) = od_lookup k0 d.
Proof.
  intros Hne. induction d as [| [k' v'] d IH]; simpl.
  - rewrite (proj2 (key_eq_false k k0)) by congruence. reflexivity.
  - destruct (key_eq k' k) eqn:E; simpl.
    + apply key_eq_true in E. subst k'.
      rewrite (proj2 (key_eq_false k k0)) by congruence. reflexivity.
    + rewrite IH. reflexivity.
Qed.

(** One step of filling a typed mapping. *)
Lemma mapping_fill_step {env : PyEnv} (cls : cls_ref) (child_key : string)
    (raw c k : value) (children : list value)
    (kwargs : list (value * value)) :
  converters.element cls raw = Ok c ->
  getattr c child_key = Ok k ->
  hashable k = true ->
  converters.mapping_fill cls child_key (raw :: children) kwargs
  = converters.mapping_fill cls child_key children (od_insert k c kwargs).
Proof.
  intros E G H. cbn [converters.mapping_fill].
  rewrite E. cbn [mbind result_bind rbind].
  rewrite G. cbn [mbind result_bind rbind]. rewrite H. reflexivity.
Qed.

(** C9.  With the child key [id], three raw children whose canonical
    children have the ids 1, 2 and 1 make a typed mapping of exactly two
    entries, keyed 1 and 2 in this order; the entry under 1 is the third
    child, the last one with that id. *)
Theorem TypedMapping_last_child_wins {env : PyEnv} (cls : cls_ref)
    (default : default_arg) (required repr : bool) (key : option string)
    (metadata : option loc) (h : heap) (r1 r2 r3 c1 c2 c3 : value) :
  converters.element cls r1 = Ok c1 ->
  converters.element cls r2 = Ok c2 ->
  converters.element cls r3 = Ok c3 ->
  getattr c1 "id" = Ok (VInt 1) ->
  getattr c2 "id" = Ok (VInt 2) ->
  getattr c3 "id" = Ok (VInt 1) ->
  let d := (MappingField cls "id" default required repr key metadata h).1 in
  exists entries,
    run_converter d (VList [r1; r2; r3]) = Ok (VTypedMapping cls "id" entries)
    /\ entries = [(VInt 1, c3); (VInt 2, c2)]
    /\ length entries = 2%nat
    /\ entries.*1 = [VInt 1; VInt 2]
    /\ od_lookup (VInt 1) entries = Some c3
    /\ od_lookup (VInt 2) entries = Some c2.
Proof.
  intros E1 E2 E3 G1 G2 G3. unfold_field.
  exists [(VInt 1, c3); (VInt 2, c2)].
  split; [| repeat split].
  unfold run_converter, a_converter, converters.to_mapping_field,
    converters.TypedMapping.
  cbn [converters.children_of iterate].
  rewrite (mapping_fill_step _ _ _ _ _ _ _ E1 G1 eq_refl).
  rewrite (mapping_fill_step _ _ _ _ _ _ _ E2 G2 eq_refl).
  rewrite (mapping_fill_step _ _ _ _ _ _ _ E3 G3 eq_refl).
  reflexivity.
Qed.

(** The children [{"id": 1, "n": "a"}], [{"id": 2, "n": "b"}] and
    [{"id": 1, "n": "c"}] of a model class named ["Child"]. *)
Lemma TypedMapping_last_child_wins_witness :
  let raw (i : Z) (n : string) :=
    VDict [(VStr "id", VInt i); (VStr "n", VStr n)] in
  let child (i : Z) (n : string) :=
    VInstance "Child" [("id", VInt i); ("n", VStr n)] in
  let cls := ClsName "Child" in
  @converters.element sample_env cls (raw 1 "a") = Ok (child 1 "a")
  /\ @converters.element sample_env cls (raw 2 "b") = Ok (child 2 "b")
  /\ @converters.element sample_env cls (raw 1 "c") = Ok (child 1 "c")
  /\ getattr (child 1 "a") "id" = Ok (VInt 1)
  /\ getattr (child 2 "b") "id" = Ok (VInt 2)
  /\ getattr (child 1 "c") "id" = Ok (VInt 1)
  /\ let d := (@MappingField sample_env cls "id" NOTHING true false
                 None None ∅).1 in
     exists entries,
       @run_converter d (VList [raw 1 "a"; raw 2 "b"; raw 1 "c"])
       = Ok (VTypedMapping cls "id" entries)
       /\ entries = [(VInt 1, child 1 "c"); (VInt 2, child 2 "b")]
       /\ length entries = 2%nat
       /\ entries.*1 = [VInt 1; VInt 2]
       /\ od_lookup (VInt 1) entries = Some (child 1 "c")
       /\ od_lookup (VInt 2) entries = Some (child 2 "b").
Proof.
  intros raw child cls.
  repeat (split; [reflexivity |]).
  apply (@TypedMapping_last_child_wins sample_env cls NOTHING true false
           None None ∅ (raw 1 "a") (raw 2 "b") (raw 1 "c")
           (child 1 "a") (child 2 "b") (child 1 "c"));
    reflexivity.
Defined.

Lemma metadata_key_entry_and_exclude_witness :
  let a := mk_kwargs NOTHING true true true None (Some 0%nat) in
  let h : heap := {[ 0%nat := {["exclude" := VBool true]} ]} in
  (forall l, kw_metadata a = Some l -> is_Some (h !! l))
  /\ let r := @make_field sample_env KString a h in
     let md := metadata_of r.1 r.2 in
     r.2 !! a_metadata r.1 = Some md
     /\ md !! "key" = Some (key_value (kw_key a))
     /\ (kw_key a = None -> md !! "key" = Some VNone)
     /\ md !! "exclude"
        = match kw_metadata a with
          | Some l => (h !!! l) !! "exclude"
          | None => None
          end.
Proof.
  intros a h.
  assert (Hwf : forall l, kw_metadata a = Some l -> is_Some (h !! l)).
  { intros l E. injection E as <-. eexists. reflexivity. }
  split; [exact Hwf |].
  apply (@metadata_key_entry_and_exclude sample_env KString a h Hwf).
Defined.

(** ** Converting twice *)

Ltac rsimpl := cbn [mbind result_bind rbind] in *.

Section Idempotence.
Context {env : PyEnv}.

(** What the construction of class [t] returns is an instance of
    [t]. *)
Hypothesis construct_isinstance :
  forall t raw v, construct t raw = Ok v -> isinstance v t = true.

Lemma to_model_isinstance (cls : cls_ref) (x c : value) :
  converters.to_model cls x = Ok c -> isinstance c (resolve_cls cls) = true.
Proof.
  unfold converters.to_model.
  destruct (isinstance x (resolve_cls cls)) eqn:E.
  - intros [= <-]. exact E.
  - apply construct_isinstance.
Qed.

Lemma to_model_idempotent (cls : cls_ref) (x c : value) :
  converters.to_model cls x = Ok c -> converters.to_model cls c = Ok c.
Proof.
  intros H. apply to_model_isinstance in H.
  unfold converters.to_model. rewrite H. reflexivity.
Qed.

Lemma element_idempotent (cls : cls_ref) (x c : value) :
  converters.element cls x = Ok c -> converters.element cls c = Ok c.
Proof.
  unfold converters.element.
  destruct (converters.to_model cls x) as [c' |] eqn:E; rsimpl;
    [| discriminate].
  destruct (validate [CheckInstanceOf (resolve_cls cls)] c') eqn:V; rsimpl;
    [| discriminate].
  intros [= <-]. rewrite (to_model_idempotent cls x c' E). rsimpl.
  rewrite V. reflexivity.
Qed.

Lemma mapM_result_idempotent (f : value -> result value) :
  (forall x c, f x = Ok c -> f c = Ok c) ->
  forall l l', mapM_result f l = Ok l' ->
    Forall (fun c => f c = Ok c) l' /\ mapM_result f l' = Ok l'.
Proof.
  intros Hf. induction l as [| x l IH]; intros l' H; simpl in H.
  - injection H as <-. split; [constructor | reflexivity].
  - destruct (f x) as [y |] eqn:Ex; rsimpl; [| discriminate].
    destruct (mapM_result f l) as [ys |] eqn:El; rsimpl; [| discriminate].
    injection H as <-. destruct (IH ys eq_refl) as [HF HM]. split.
    + constructor; [exact (Hf x y Ex) | exact HF].
    + simpl. rewrite (Hf x y Ex). rsimpl. rewrite HM. reflexivity.
Qed.

Lemma mapM_result_fixed (f : value -> result value) (l : list value) :
  Forall (fun c => f c = Ok c) l -> mapM_result f l = Ok l.
Proof.
  induction 1 as [| x l Hx _ IH]; simpl.
  - reflexivity.
  - rewrite Hx. rsimpl. rewrite IH. reflexivity.
Qed.

(** *** Sets *)

Lemma set_add_fresh (s : list value) (x : value) :
  x ∉ s -> set_add s x = (s ++ [x])%list.
Proof.
  intros Hnot. unfold set_add.
  destruct (existsb (fun y => key_eq y x) s) eqn:E; [| reflexivity].
  apply existsb_exists in E. destruct E as [y [Hin Hy]].
  apply key_eq_true in Hy. subst y.
  exfalso. apply Hnot. apply list_elem_of_In. exact Hin.
Qed.

Lemma set_add_spec (s : list value) (x : value) :
  NoDup s ->
  NoDup (set_add s x) /\ forall y, y ∈ set_add s x -> y ∈ s \/ y = x.
Proof.
  intros Hnd. unfold set_add.
  destruct (existsb (fun y => key_eq y x) s) eqn:E.
  - split; [exact Hnd | intros y Hy; left; exact Hy].
  - split.
    + apply NoDup_app. split; [exact Hnd |]. split.
      * intros y Hy Hy'. apply list_elem_of_singleton in Hy'. subst y.
        apply list_elem_of_In in Hy.
        assert (existsb (fun y => key_eq y x) s = true) as E'.
        { apply existsb_exists. exists x. split; [exact Hy |].
          apply key_eq_true. reflexivity. }
        congruence.
      * apply NoDup_singleton.
    + intros y Hy. apply elem_of_app in Hy. destruct Hy as [Hy | Hy].
      * left. exact Hy.
      * right. apply list_elem_of_singleton in Hy. exact Hy.
Qed.

Lemma set_fill_spec (items : list value) :
  forall acc s, converters.set_fill items acc = Ok s ->
    NoDup acc ->
    NoDup s
    /\ (forall y, y ∈ s -> y ∈ acc \/ y ∈ items)
    /\ Forall (fun x => hashable x = true) items.
Proof.
  induction items as [| x items IH]; intros acc s H Hnd; simpl in H.
  - injection H as <-. split; [exact Hnd |]. split.
    + intros y Hy. left. exact Hy.
    + constructor.
  - destruct (hashable x) eqn:Hx; [| discriminate].
    destruct (set_add_spec acc x Hnd) as [Hnd' Hsub].
    destruct (IH _ _ H Hnd') as [Hs [Hin Hh]].
    split; [exact Hs |]. split.
    + intros y Hy. destruct (Hin y Hy) as [Hy' | Hy'].
      * destruct (Hsub y Hy') as [Hy'' | ->].
        -- left. exact Hy''.
        -- right. apply elem_of_cons. left. reflexivity.
      * right. apply elem_of_cons. right. exact Hy'.
    + constructor; [exact Hx | exact Hh].
Qed.

Lemma set_fill_fixed (items : list value) :
  forall acc, NoDup (acc ++ items) ->
    Forall (fun x => hashable x = true) items ->
    converters.set_fill items acc = Ok (acc ++ items)%list.
Proof.
  induction items as [| x items IH]; intros acc Hnd Hh; simpl.
  - rewrite app_nil_r. reflexivity.
  - apply Forall_cons in Hh. destruct Hh as [Hx Hh]. rewrite Hx.
    assert (Hnot : x ∉ acc).
    { apply NoDup_app in Hnd. destruct Hnd as [_ [Hdis _]].
      intros Hin. apply (Hdis x Hin). apply elem_of_cons. left.
      reflexivity. }
    rewrite (set_add_fresh acc x Hnot).
    rewrite (IH (acc ++ [x])%list).
    + rewrite <- app_assoc. reflexivity.
    + rewrite <- app_assoc. exact Hnd.
    + exact Hh.
Qed.

(** *** Mappings *)

(** Every entry of a typed mapping that has been filled is keyed by
    the child key of its child, which is canonical; no key occurs
    twice. *)
Definition entry_ok (cls : cls_ref) (child_key : string)
    (kc : value * value) : Prop :=
  converters.element cls kc.2 = Ok kc.2
  /\ getattr kc.2 child_key = Ok kc.1
  /\ hashable kc.1 = true.

Definition entries_ok (cls : cls_ref) (child_key : string)
    (kwargs : list (value * value)) : Prop :=
  NoDup kwargs.*1 /\ Forall (entry_ok cls child_key) kwargs.

Lemma od_insert_Forall (P : value * value -> Prop) (k v : value)
    (d : list (value * value)) :
  P (k, v) -> Forall P d -> Forall P (od_insert k v d).
Proof.
  intros Hkv. induction 1 as [| [k' v'] d Hx Hd IH]; simpl.
  - constructor; [exact Hkv | constructor].
  - destruct (key_eq k' k) eqn:E.
    + apply key_eq_true in E. subst k'. constructor; assumption.
    + constructor; assumption.
Qed.

Lemma od_insert_NoDup (k v : value) (d : list (value * value)) :
  NoDup d.*1 -> NoDup (od_insert k v d).*1.
Proof.
  intros Hnd. rewrite od_insert_keys. case_bool_decide as Hin.
  - exact Hnd.
  - apply NoDup_app. split; [exact Hnd |]. split.
    + intros y Hy Hy'. apply list_elem_of_singleton in Hy'. subst y.
      exact (Hin Hy).
    + apply NoDup_singleton.
Qed.

Lemma mapping_fill_entries_ok (cls : cls_ref) (child_key : string)
    (children : list value) :
  forall kwargs r,
    converters.mapping_fill cls child_key children kwargs = Ok r ->
    entries_ok cls child_key kwargs -> entries_ok cls child_key r.
Proof.
  induction children as [| raw children IH]; intros kwargs r H Hok;
    simpl in H.
  - injection H as <-. exact Hok.
  - destruct (converters.element cls raw) as [c |] eqn:Ec; rsimpl;
      [| discriminate].
    destruct (getattr c child_key) as [k |] eqn:Ek; rsimpl;
      [| discriminate].
    destruct (hashable k) eqn:Hk; [| discriminate].
    apply (IH _ _ H). destruct Hok as [Hnd HF]. split.
    + apply od_insert_NoDup. exact Hnd.
    + apply od_insert_Forall; [| exact HF].
      split; [| split]; simpl.
      * exact (element_idempotent cls raw c Ec).
      * exact Ek.
      * exact Hk.
Qed.

Lemma mapping_fill_fixed (cls : cls_ref) (child_key : string)
    (kwargs : list (value * value)) :
  forall acc, entries_ok cls child_key (acc ++ kwargs) ->
    converters.mapping_fill cls child_key (List.map snd kwargs) acc
    = Ok (acc ++ kwargs)%list.
Proof.
  induction kwargs as [| [k c] kwargs IH]; intros acc [Hnd HF].
  - simpl. rewrite app_nil_r. reflexivity.
  - assert (Hkc : entry_ok cls child_key (k, c)).
    { apply Forall_app in HF. destruct HF as [_ HF].
      apply Forall_cons in HF. destruct HF as [H _]. exact H. }
    destruct Hkc as [Hc [Hk Hh]]. simpl in Hc, Hk, Hh.
    assert (Hnot : k ∉ acc.*1).
    { rewrite fmap_app, fmap_cons in Hnd. apply NoDup_app in Hnd.
      destruct Hnd as [_ [Hdis _]]. intros Hin. apply (Hdis k Hin).
      apply elem_of_cons. left. reflexivity. }
    cbn [List.map snd].
    rewrite (mapping_fill_step cls child_key c c k _ acc Hc Hk Hh).
    rewrite (od_insert_fresh k c acc Hnot).
    rewrite (IH (acc ++ [(k, c)])%list).
    + rewrite <- app_assoc. reflexivity.
    + rewrite <- app_assoc. split; [exact Hnd | exact HF].
Qed.

(** *** The converters, one by one *)

Lemma TypedSequence_idempotent (cls : cls_ref) (x c : value) :
  converters.TypedSequence cls x = Ok c ->
  converters.TypedSequence cls c = Ok c.
Proof.
  unfold converters.TypedSequence.
  destruct (iterate x) as [items |]; [| discriminate].
  destruct (mapM_result (converters.element cls) items) as [args |] eqn:E;
    rsimpl; [| discriminate].
  intros [= <-]. cbn [iterate].
  destruct (mapM_result_idempotent _ (element_idempotent cls) _ _ E)
    as [_ ->].
  reflexivity.
Qed.

Lemma TypedSet_idempotent (cls : cls_ref) (x c : value) :
  converters.TypedSet cls x = Ok c -> converters.TypedSet cls c = Ok c.
Proof.
  unfold converters.TypedSet.
  destruct (iterate x) as [items |]; [| discriminate].
  destruct (mapM_result (converters.element cls) items) as [args |] eqn:E;
    rsimpl; [| discriminate].
  destruct (converters.set_fill args []) as [s |] eqn:Es; rsimpl;
    [| discriminate].
  intros [= <-]. cbn [iterate].
  destruct (mapM_result_idempotent _ (element_idempotent cls) _ _ E)
    as [HF _].
  destruct (set_fill_spec args [] s Es (NoDup_nil_2)) as [Hnd [Hsub Hh]].
  assert (Hs : Forall (fun c => converters.element cls c = Ok c) s).
  { apply Forall_forall. intros y Hy.
    destruct (Hsub y Hy) as [Hy' | Hy']; [inversion Hy' |].
    rewrite Forall_forall in HF. exact (HF y Hy'). }
  assert (Hhs : Forall (fun x => hashable x = true) s).
  { apply Forall_forall. intros y Hy.
    destruct (Hsub y Hy) as [Hy' | Hy']; [inversion Hy' |].
    rewrite Forall_forall in Hh. exact (Hh y Hy'). }
  rewrite (mapM_result_fixed _ s Hs). rsimpl.
  rewrite (set_fill_fixed s [] Hnd Hhs). reflexivity.
Qed.

Lemma TypedMapping_idempotent (cls : cls_ref) (child_key : string)
    (x c : value) :
  converters.TypedMapping cls child_key x = Ok c ->
  converters.TypedMapping cls child_key c = Ok c.
Proof.
  unfold converters.TypedMapping.
  destruct (converters.children_of x) as [children |]; [| discriminate].
  destruct (converters.mapping_fill cls child_key children [])
    as [kwargs |] eqn:E; rsimpl; [| discriminate].
  intros [= <-]. cbn [converters.children_of].
  assert (Hok : entries_ok cls child_key kwargs).
  { apply (mapping_fill_entries_ok cls child_key children [] kwargs E).
    split; [apply NoDup_nil_2 | constructor]. }
  rewrite (mapping_fill_fixed cls child_key kwargs [] Hok). reflexivity.
Qed.

Lemma Decimal_idempotent (x c : value) :
  (d ← DecimalCtor.Decimal_new x; Ok (VDecimal d)) = Ok c ->
  (d ← DecimalCtor.Decimal_new c; Ok (VDecimal d)) = Ok c.
Proof.
  destruct (DecimalCtor.Decimal_new x) as [d |]; rsimpl; [| discriminate].
  intros [= <-]. reflexivity.
Qed.

Lemma scalar_converters_idempotent (x c : value) :
  (converters.int_if_not_none x = Ok c ->
   converters.int_if_not_none c = Ok c)
  /\ (converters.float_if_not_none x = Ok c ->
      converters.float_if_not_none c = Ok c)
  /\ (converters.str_if_not_none x = Ok c ->
      converters.str_if_not_none c = Ok c)
  /\ (converters.str_to_url x = Ok c -> converters.str_to_url c = Ok c)
  /\ (converters.str_to_uuid x = Ok c -> converters.str_to_uuid c = Ok c).
Proof.
  unfold converters.int_if_not_none, converters.float_if_not_none,
    converters.str_if_not_none, converters.str_to_url,
    converters.str_to_uuid.
  repeat split; intros H; destruct x; simpl in H;
    repeat match type of H with
           | context [match ?o with _ => _ end] => destruct o
           end;
    try discriminate; injection H as <-; reflexivity.
Qed.

Lemma temporal_converters_idempotent (formatter : string) (x c : value) :
  (converters.to_date_field formatter x = Ok c ->
   converters.to_date_field formatter c = Ok c)
  /\ (converters.to_datetime_field formatter x = Ok c ->
      converters.to_datetime_field formatter c = Ok c)
  /\ (converters.to_time_field formatter x = Ok c ->
      converters.to_time_field formatter c = Ok c).
Proof.
  unfold converters.to_date_field, converters.to_datetime_field,
    converters.to_time_field.
  repeat split; intros H; destruct x; simpl in H;
    repeat match type of H with
           | context [match ?o with _ => _ end] => destruct o
           end;
    try discriminate; injection H as <-; reflexivity.
Qed.

(** For every kind of field, a value that the converter of the field
    returns is returned unchanged when it is converted again.  A
    Boolean field, which has no converter, takes its raw value as it
    is. *)
Lemma run_converter_fixes_its_results (k : kind) (a : kwargs) (h : heap)
    (x c : value) :
  let d := (make_field k a h).1 in
  run_converter d x = Ok c -> run_converter d c = Ok c.
Proof.
  destruct a as [default required repr cmp key metadata].
  destruct (scalar_converters_idempotent x c)
    as [Hint [Hfloat [Hstr [Hurl Huuid]]]].
  destruct k; cbn [make_field]; unfold_field; unfold run_converter;
    cbn [a_converter]; try assumption.
  - intros [= <-]. reflexivity.
  - apply to_model_idempotent.
  - apply temporal_converters_idempotent.
  - apply temporal_converters_idempotent.
  - apply temporal_converters_idempotent.
  - apply TypedMapping_idempotent.
  - apply TypedSequence_idempotent.
  - apply TypedSet_idempotent.
  - apply Decimal_idempotent.
Qed.

End Idempotence.

Lemma sample_construct_isinstance (t : pytype) (raw v : value) :
  sample_construct t raw = Ok v -> isinstance v t = true.
Proof.
  destruct t; simpl; try discriminate.
  destruct raw; try discriminate.
  intros [= <-]. simpl. apply String.eqb_refl.
Qed.

(** A decimal that is not a NaN equals itself; a NaN does not. *)
Lemma Decimal_eq_itself (d : Decimal) :
  (Decimal_is_nan d = false -> Decimal_eq d d = CmpBool true)
  /\ (Decimal_is_nan d = true -> Decimal_eq d d <> CmpBool true).
Proof.
  destruct d as [s c e | s | s [] diag]; simpl; split;
    try discriminate; intros _.
  - destruct (c =? 0)%N eqn:Ec; simpl; [reflexivity |].
    rewrite Bool.eqb_reflx, Z.leb_refl, Z.sub_diag. simpl.
    rewrite N.mul_1_r, N.eqb_refl. reflexivity.
  - rewrite Bool.eqb_reflx. reflexivity.
Qed.

(** The generating reading of the UUID converter, too, returns a value
    it has returned. *)
Lemma str_to_uuid_generating_fixes_its_results {env : PyEnv}
    (x c : value) (w w' w2 : nat) :
  converters.str_to_uuid_generating x w = (Ok c, w') ->
  converters.str_to_uuid_generating c w2 = (Ok c, w2).
Proof.
  unfold converters.str_to_uuid_generating, converters.str_to_uuid.
  destruct x; intros H;
    repeat match type of H with
           | context [match ?o with _ => _ end] => destruct o
           end;
    try discriminate; injection H as <- _; reflexivity.
Qed.

(** C8, as stated, fails on the converter of a Decimal field at the
    string ["NaN"]: the conversion succeeds, converting its result again
    succeeds with the same NaN, and [==] between the two is [False]; at
    ["sNaN"] the [==] raises. *)
Lemma Decimal_nan_is_unequal_to_its_reconversion :
  let d := (DecimalField NOTHING true true true None None ∅).1 in
  let nan := DNaN false false 0 in
  let snan := DNaN false true 0 in
  run_converter d (VStr "NaN") = Ok (VDecimal nan)
  /\ run_converter d (VDecimal nan) = Ok (VDecimal nan)
  /\ Decimal_eq nan nan = CmpBool false
  /\ run_converter d (VStr "sNaN") = Ok (VDecimal snan)
  /\ run_converter d (VDecimal snan) = Ok (VDecimal snan)
  /\ Decimal_eq snan snan = CmpRaises InvalidOperation.
Proof. repeat split. Qed.

(** C8, amended.  For every kind of field, a value that the converter
    of the field returns is returned unchanged when it is converted
    again: whenever [converter(x)] succeeds with [c], [converter(c)]
    succeeds with that same [c].  For the Decimal kind,
    [converter(converter(x)) == converter(x)] is [True] when the value
    is not a NaN and is not [True] when it is one.  The first part also
    holds of a UUID converter that makes a fresh identifier of a null
    input. *)
Theorem converter_returns_its_results_unchanged {env : PyEnv} :
  (forall t raw v, construct t raw = Ok v -> isinstance v t = true) ->
  (forall k a h x c,
     run_converter (make_field k a h).1 x = Ok c ->
     run_converter (make_field k a h).1 c = Ok c)
  /\ (forall a h x c,
        run_converter (make_field KDecimal a h).1 x = Ok c ->
        exists dec,
          c = VDecimal dec
          /\ run_converter (make_field KDecimal a h).1 c = Ok (VDecimal dec)
          /\ (Decimal_is_nan dec = false ->
              Decimal_eq dec dec = CmpBool true)
          /\ (Decimal_is_nan dec = true ->
              Decimal_eq dec dec <> CmpBool true))
  /\ (forall x c w w' w2,
        converters.str_to_uuid_generating x w = (Ok c, w') ->
        converters.str_to_uuid_generating c w2 = (Ok c, w2)).
Proof.
  intros Hconstruct. split; [| split].
  - intros k a h x c. apply (run_converter_fixes_its_results Hconstruct).
  - intros [default required repr cmp key metadata] h x c.
    cbn [make_field]. unfold_field. unfold run_converter.
    cbn [a_converter].
    destruct (DecimalCtor.Decimal_new x) as [dec |]; rsimpl;
      [| discriminate].
    intros [= <-]. exists dec. split; [reflexivity |].
    split; [reflexivity |]. apply Decimal_eq_itself.
  - intros x c w w' w2. apply str_to_uuid_generating_fixes_its_results.
Qed.

(** The hypothesis holds of the environment of the examples. *)
Lemma converter_returns_its_results_unchanged_witness :
  (forall t raw v,
     @construct sample_env t raw = Ok v -> isinstance v t = true)
  /\ ((forall k a h x c,
         run_converter (@make_field sample_env k a h).1 x = Ok c ->
         run_converter (@make_field sample_env k a h).1 c = Ok c)
      /\ (forall a h x c,
            run_converter (@make_field sample_env KDecimal a h).1 x = Ok c ->
            exists dec,
              c = VDecimal dec
              /\ run_converter (@make_field sample_env KDecimal a h).1 c
                 = Ok (VDecimal dec)
              /\ (Decimal_is_nan dec = false ->
                  Decimal_eq dec dec = CmpBool true)
              /\ (Decimal_is_nan dec = true ->
                  Decimal_eq dec dec <> CmpBool true))
      /\ (forall x c w w' w2,
            @converters.str_to_uuid_generating sample_env x w = (Ok c, w') ->
            @converters.str_to_uuid_generating sample_env c w2
            = (Ok c, w2))).
Proof.
  split; [exact sample_construct_isinstance |].
  apply (@converter_returns_its_results_unchanged sample_env
           sample_construct_isinstance).
Defined.

(** * Further properties of [fields.py] *)

(** ** [_field_metadata] as a whole *)

(** With distinct preset names, updating with the presets is the union
    of the presets over what the dict held. *)
Lemma dict_update_union (preset : list (string * value)) (m : pydict) :
  NoDup preset.*1 ->
  dict_update m preset = (list_to_map preset : pydict) ∪ m.
Proof.
  intros Hnd. apply map_eq. intros name.
  rewrite lookup_union.
  destruct (decide (name ∈ preset.*1)) as [Hin | Hnot].
  - apply list_elem_of_fmap in Hin. destruct Hin as [[n v] [-> Hin]].
    simpl. rewrite (dict_update_lookup_preset preset m n v Hnd Hin).
    rewrite (elem_of_list_to_map_1 preset n v Hnd Hin).
    destruct (m !! n); reflexivity.
  - rewrite (dict_update_lookup_other preset m name Hnot).
    rewrite (not_elem_of_list_to_map_1 preset name Hnot).
    destruct (m !! name); reflexivity.
Qed.

Lemma dict_update_twice (preset : list (string * value)) (m : pydict) :
  NoDup preset.*1 ->
  dict_update (dict_update m preset) preset = dict_update m preset.
Proof.
  intros Hnd. rewrite !dict_update_union by exact Hnd.
  rewrite (assoc_L (∪)), (idemp_L (∪)). reflexivity.
Qed.

(** The dict of the descriptor and the store, in both cases at once. *)
Lemma make_field_cases {env : PyEnv} (k : kind) (a : kwargs) (h : heap) :
  (forall l, kw_metadata a = Some l -> is_Some (h !! l)) ->
  exists l m,
    a_metadata (make_field k a h).1 = l
    /\ (make_field k a h).2
       = <[l := dict_update m (preset_of k (kw_key a))]> h
    /\ match kw_metadata a with
       | Some l0 => l = l0 /\ h !! l = Some m
       | None => l = fresh (dom h) /\ h !! l = None /\ m = ∅
       end.
Proof.
  intros Hwf. destruct (kw_metadata a) as [l |] eqn:Hmeta.
  - destruct (Hwf l eq_refl) as [m Hl].
    destruct (metadata_of_given k a h l m Hmeta Hl) as [El Eh].
    exists l, m. repeat split; assumption.
  - destruct (metadata_of_fresh k a h Hmeta) as [El Eh].
    exists (fresh (dom h)), ∅. repeat split; try assumption.
    apply not_elem_of_dom. apply is_fresh.
Qed.

(** X1.  A constructor changes no dict that the store held before the
    call, other than the mapping it is given as metadata, and removes
    none: every dict but the one that is the metadata of the descriptor
    is as it was, and every dict that was there is still there. *)
Theorem constructors_leave_other_dicts_alone {env : PyEnv} (k : kind)
    (a : kwargs) (h : heap) :
  (forall l, kw_metadata a = Some l -> is_Some (h !! l)) ->
  let r := make_field k a h in
  (forall l', l' <> a_metadata r.1 -> r.2 !! l' = h !! l')
  /\ (forall l', is_Some (h !! l') -> is_Some (r.2 !! l')).
Proof.
  intros Hwf r.
  destruct (make_field_cases k a h Hwf) as [l [m [El [Eh _]]]].
  unfold r. rewrite El, Eh. split.
  - intros l' Hne. apply lookup_insert_ne. congruence.
  - intros l' Hl'. destruct (decide (l = l')) as [-> | Hne].
    + rewrite lookup_insert_eq. eexists. reflexivity.
    + rewrite lookup_insert_ne by exact Hne. exact Hl'.
Qed.

Lemma constructors_leave_other_dicts_alone_witness :
  let a := mk_kwargs NOTHING true true true (Some "n") (Some 0%nat) in
  let h : heap :=
    <[ 1%nat := {["other" := VInt 7]} ]> {[ 0%nat := ∅ ]} in
  (forall l, kw_metadata a = Some l -> is_Some (h !! l))
  /\ let r := @make_field sample_env KInteger a h in
     (forall l', l' <> a_metadata r.1 -> r.2 !! l' = h !! l')
     /\ (forall l', is_Some (h !! l') -> is_Some (r.2 !! l')).
Proof.
  intros a h.
  assert (Hwf : forall l, kw_metadata a = Some l -> is_Some (h !! l)).
  { intros l E. injection E as <-. eexists. reflexivity. }
  split; [exact Hwf |].
  apply (@constructors_leave_other_dicts_alone sample_env KInteger a h Hwf).
Defined.

(** X2.  Called without a metadata mapping, a constructor allocates a
    dict that was not in the store and that holds the presets and
    nothing else.  Two such calls, one after the other, give two
    different dicts, and the second call leaves the metadata of the
    first descriptor as it was. *)
Theorem fresh_metadata_is_not_shared {env : PyEnv} (k1 k2 : kind)
    (a1 a2 : kwargs) (h : heap) :
  kw_metadata a1 = None ->
  kw_metadata a2 = None ->
  let r1 := make_field k1 a1 h in
  let r2 := make_field k2 a2 r1.2 in
  h !! a_metadata r1.1 = None
  /\ metadata_of r1.1 r1.2 = list_to_map (preset_of k1 (kw_key a1))
  /\ a_metadata r2.1 <> a_metadata r1.1
  /\ metadata_of r1.1 r2.2 = metadata_of r1.1 r1.2.
Proof.
  intros H1 H2 r1 r2.
  destruct (metadata_of_fresh k1 a1 h H1) as [El1 Eh1].
  destruct (metadata_of_fresh k2 a2 r1.2 H2) as [El2 Eh2].
  fold r1 in El1, Eh1. fold r2 in El2, Eh2.
  assert (Hin : a_metadata r1.1 ∈ dom r1.2).
  { rewrite Eh1, El1, dom_insert_L.
    apply elem_of_union_l, elem_of_singleton. reflexivity. }
  assert (Hne : a_metadata r2.1 <> a_metadata r1.1).
  { intros E. rewrite <- E, El2 in Hin. exact (is_fresh _ Hin). }
  split; [| split; [| split]].
  - rewrite El1. apply not_elem_of_dom. apply is_fresh.
  - unfold metadata_of. rewrite Eh1, El1, lookup_total_insert_eq.
    rewrite dict_update_union by apply preset_of_names_NoDup.
    apply (right_id_L ∅ (∪)).
  - exact Hne.
  - unfold metadata_of. rewrite Eh2.
    rewrite lookup_total_insert_ne; [reflexivity |].
    rewrite <- El2. exact Hne.
Qed.

Lemma fresh_metadata_is_not_shared_witness :
  let a1 := mk_kwargs NOTHING true true true (Some "a") None in
  let a2 := mk_kwargs NOTHING true true true (Some "b") None in
  kw_metadata a1 = None
  /\ kw_metadata a2 = None
  /\ let r1 := @make_field sample_env KString a1 ∅ in
     let r2 := @make_field sample_env (KDate "%Y") a2 r1.2 in
     (∅ : heap) !! a_metadata r1.1 = None
     /\ metadata_of r1.1 r1.2 = list_to_map (preset_of KString (kw_key a1))
     /\ a_metadata r2.1 <> a_metadata r1.1
     /\ metadata_of r1.1 r2.2 = metadata_of r1.1 r1.2.
Proof.
  intros a1 a2. split; [reflexivity |]. split; [reflexivity |].
  apply (@fresh_metadata_is_not_shared sample_env KString (KDate "%Y")
           a1 a2 ∅); reflexivity.
Defined.

(** X3.  Given a mapping, the metadata of the descriptor is that
    mapping overridden by the presets and nothing else: its keys are the
    caller's keys together with the preset names, so no entry of the
    caller is ever dropped. *)
Theorem metadata_is_presets_over_caller_entries {env : PyEnv} (k : kind)
    (a : kwargs) (h : heap) (l : loc) (m : pydict) :
  kw_metadata a = Some l ->
  h !! l = Some m ->
  let r := make_field k a h in
  let md := metadata_of r.1 r.2 in
  md = (list_to_map (preset_of k (kw_key a)) : pydict) ∪ m
  /\ dom md = list_to_set (preset_of k (kw_key a)).*1 ∪ dom m
  /\ (forall name, is_Some (m !! name) -> is_Some (md !! name)).
Proof.
  intros Hmeta Hl r md.
  destruct (metadata_of_given k a h l m Hmeta Hl) as [El Eh].
  assert (Emd : md = (list_to_map (preset_of k (kw_key a)) : pydict) ∪ m).
  { unfold md, metadata_of, r. rewrite El, Eh, lookup_total_insert_eq.
    apply dict_update_union, preset_of_names_NoDup. }
  split; [exact Emd |]. rewrite Emd. split.
  - rewrite dom_union_L, dom_list_to_map_L. reflexivity.
  - intros name [v Hv]. rewrite lookup_union, Hv.
    destruct (list_to_map (preset_of k (kw_key a)) !! name); eexists;
      reflexivity.
Qed.

Lemma metadata_is_presets_over_caller_entries_witness :
  let a := mk_kwargs NOTHING true true true (Some "t") (Some 0%nat) in
  let m : pydict := <["exclude" := VBool true]> {["key" := VStr "old"]} in
  let h : heap := {[ 0%nat := m ]} in
  kw_metadata a = Some 0%nat
  /\ h !! 0%nat = Some m
  /\ let r := @make_field sample_env (KTime "%H") a h in
     let md := metadata_of r.1 r.2 in
     md = (list_to_map (preset_of (KTime "%H") (kw_key a)) : pydict) ∪ m
     /\ dom md = list_to_set (preset_of (KTime "%H") (kw_key a)).*1 ∪ dom m
     /\ (forall name, is_Some (m !! name) -> is_Some (md !! name)).
Proof.
  intros a m h. split; [reflexivity |]. split; [reflexivity |].
  apply (@metadata_is_presets_over_caller_entries sample_env (KTime "%H")
           a h 0%nat m); reflexivity.
Defined.

(** X4.  Calling the same constructor a second time with the same key
    on the same mapping changes nothing: the store after the second
    call is the store after the first, and both descriptors refer to
    the same dict. *)
Theorem repeated_call_changes_nothing {env : PyEnv} (k : kind) (a : kwargs)
    (h : heap) (l : loc) (m : pydict) :
  kw_metadata a = Some l ->
  h !! l = Some m ->
  let r1 := make_field k a h in
  let r2 := make_field k a r1.2 in
  r2.2 = r1.2 /\ a_metadata r2.1 = a_metadata r1.1.
Proof.
  intros Hmeta Hl r1 r2.
  destruct (metadata_of_given k a h l m Hmeta Hl) as [El1 Eh1].
  fold r1 in El1, Eh1.
  assert (Hl1 : r1.2 !! l = Some (dict_update m (preset_of k (kw_key a)))).
  { rewrite Eh1. apply lookup_insert_eq. }
  destruct (metadata_of_given k a r1.2 l _ Hmeta Hl1) as [El2 Eh2].
  fold r2 in El2, Eh2. split.
  - rewrite Eh2, dict_update_twice by apply preset_of_names_NoDup.
    apply insert_id. exact Hl1.
  - rewrite El1, El2. reflexivity.
Qed.

Lemma repeated_call_changes_nothing_witness :
  let a := mk_kwargs NOTHING false true true (Some "u") (Some 0%nat) in
  let m : pydict := {["exclude" := VBool false]} in
  let h : heap := {[ 0%nat := m ]} in
  kw_metadata a = Some 0%nat
  /\ h !! 0%nat = Some m
  /\ let r1 := @make_field sample_env KUUID a h in
     let r2 := @make_field sample_env KUUID a r1.2 in
     r2.2 = r1.2 /\ a_metadata r2.1 = a_metadata r1.1.
Proof.
  intros a m h. split; [reflexivity |]. split; [reflexivity |].
  apply (@repeated_call_changes_nothing sample_env KUUID a h 0%nat m);
    reflexivity.
Defined.

(** X5.  Two constructor calls that are given the same mapping return
    descriptors that refer to one dict; after the second call the output
    key that either descriptor shows is the key of the second call, and
    a formatter that the first call had preset is still there when the
    second kind presets none. *)
Theorem shared_mapping_shows_the_last_key {env : PyEnv} (k1 k2 : kind)
    (a1 a2 : kwargs) (h : heap) (l : loc) (m : pydict) :
  kw_metadata a1 = Some l ->
  kw_metadata a2 = Some l ->
  h !! l = Some m ->
  let r1 := make_field k1 a1 h in
  let r2 := make_field k2 a2 r1.2 in
  a_metadata r1.1 = a_metadata r2.1
  /\ metadata_of r1.1 r2.2 = metadata_of r2.1 r2.2
  /\ metadata_of r1.1 r2.2 !! "key" = Some (key_value (kw_key a2))
  /\ ("formatter" ∉ (preset_of k2 (kw_key a2)).*1 ->
      metadata_of r1.1 r2.2 !! "formatter"
      = metadata_of r1.1 r1.2 !! "formatter").
Proof.
  intros H1 H2 Hl r1 r2.
  destruct (metadata_of_given k1 a1 h l m H1 Hl) as [El1 Eh1].
  fold r1 in El1, Eh1.
  assert (Hl1 : r1.2 !! l = Some (dict_update m (preset_of k1 (kw_key a1)))).
  { rewrite Eh1. apply lookup_insert_eq. }
  destruct (metadata_of_given k2 a2 r1.2 l _ H2 Hl1) as [El2 Eh2].
  fold r2 in El2, Eh2.
  assert (E : a_metadata r1.1 = a_metadata r2.1) by congruence.
  split; [exact E |]. split; [unfold metadata_of; rewrite E; reflexivity |].
  unfold metadata_of. rewrite El1, Eh2, lookup_total_insert_eq. split.
  - apply dict_update_lookup_preset;
      [apply preset_of_names_NoDup | apply preset_of_key].
  - intros Hnot. rewrite dict_update_lookup_other by exact Hnot.
    rewrite (lookup_total_correct _ _ _ Hl1). reflexivity.
Qed.

Lemma shared_mapping_shows_the_last_key_witness :
  let a1 := mk_kwargs NOTHING true true true (Some "day") (Some 0%nat) in
  let a2 := mk_kwargs NOTHING true true true (Some "name") (Some 0%nat) in
  let m : pydict := {["exclude" := VBool true]} in
  let h : heap := {[ 0%nat := m ]} in
  kw_metadata a1 = Some 0%nat
  /\ kw_metadata a2 = Some 0%nat
  /\ h !! 0%nat = Some m
  /\ let r1 := @make_field sample_env (KDate "%Y") a1 h in
     let r2 := @make_field sample_env KString a2 r1.2 in
     a_metadata r1.1 = a_metadata r2.1
     /\ metadata_of r1.1 r2.2 = metadata_of r2.1 r2.2
     /\ metadata_of r1.1 r2.2 !! "key" = Some (key_value (kw_key a2))
     /\ ("formatter" ∉ (preset_of KString (kw_key a2)).*1 ->
         metadata_of r1.1 r2.2 !! "formatter"
         = metadata_of r1.1 r1.2 !! "formatter").
Proof.
  intros a1 a2 m h.
  split; [reflexivity |]. split; [reflexivity |]. split; [reflexivity |].
  apply (@shared_mapping_shows_the_last_key sample_env (KDate "%Y") KString
           a1 a2 h 0%nat m); reflexivity.
Defined.

(** X6.  The assertions of [test_metadata], for every constructor and
    every key: built with [key=k] and [metadata={'exclude': True}], a
    new dict, the descriptor's metadata has [True] under ["exclude"]
    and [k] under ["key"]. *)
Theorem test_metadata_holds_for_every_constructor {env : PyEnv} (k : kind)
    (default : default_arg) (required repr cmp : bool) (key : string)
    (h : heap) (l : loc) :
  h !! l = Some {["exclude" := VBool true]} ->
  let r := make_field k
             (mk_kwargs default required repr cmp (Some key) (Some l)) h in
  metadata_of r.1 r.2 !! "exclude" = Some (VBool true)
  /\ metadata_of r.1 r.2 !! "key" = Some (VStr key).
Proof.
  intros Hl r.
  destruct (metadata_of_given k
              (mk_kwargs default required repr cmp (Some key) (Some l))
              h l _ eq_refl Hl) as [El Eh].
  unfold metadata_of, r. rewrite El, Eh, lookup_total_insert_eq.
  cbn [kw_key]. split.
  - rewrite dict_update_lookup_other.
    + apply lookup_singleton_eq.
    + destruct k; simpl; rewrite ?elem_of_cons, ?elem_of_nil;
        intuition discriminate.
  - apply (dict_update_lookup_preset _ _ "key" (key_value (Some key)));
      [apply preset_of_names_NoDup | apply preset_of_key].
Qed.

(** [related.MappingField(MyChild, "int", key="dict", required=False,
    metadata={'exclude': True})], as in the test. *)
Lemma test_metadata_holds_for_every_constructor_witness :
  let h : heap := {[ 0%nat := {["exclude" := VBool true]} ]} in
  h !! 0%nat = Some ({["exclude" := VBool true]} : pydict)
  /\ let r := @make_field sample_env
                (KMapping (ClsObj (TModel "MyChild")) "int")
                (mk_kwargs NOTHING false false true (Some "dict")
                   (Some 0%nat)) h in
     metadata_of r.1 r.2 !! "exclude" = Some (VBool true)
     /\ metadata_of r.1 r.2 !! "key" = Some (VStr "dict").
Proof.
  intros h. split; [reflexivity |].
  apply (@test_metadata_holds_for_every_constructor sample_env
           (KMapping (ClsObj (TModel "MyChild")) "int")
           NOTHING false false true "dict" h 0%nat).
  reflexivity.
Defined.

(** ** The converter of [DecimalField] *)

(** The converter that [DecimalField] hands to [attrib]. *)
Lemma DecimalField_run_converter (default : default_arg)
    (required repr cmp : bool) (key : option string)
    (metadata : option loc) (h : heap) (x : value) :
  run_converter (DecimalField default required repr cmp key metadata h).1 x
  = (dec ← DecimalCtor.Decimal_new x; Ok (VDecimal dec)).
Proof. unfold_field. reflexivity. Qed.

Lemma strip_twos_spec (fuel : nat) :
  forall (m : positive) (t : nat) (n : positive),
    DecimalCtor.strip_twos fuel m = (t, n) ->
    (Npos m = Npos n * 2 ^ N.of_nat t)%N
    /\ (t <= fuel)%nat
    /\ ((t < fuel)%nat -> N.odd (Npos n) = true).
Proof.
  induction fuel as [| fuel IH]; intros m t n H; simpl in H.
  - injection H as <- <-. split; [| split]; [simpl; lia | lia | lia].
  - destruct m as [m' | m' |].
    + injection H as <- <-. split; [| split]; [simpl; lia | lia |].
      intros _. reflexivity.
    + destruct (DecimalCtor.strip_twos fuel m') as [t' n'] eqn:E.
      injection H as <- <-. destruct (IH m' t' n' E) as [Hm [Ht Hodd]].
      split; [| split].
      * rewrite Nat2N.inj_succ, N.pow_succ_r by lia.
        change (Npos m'~0) with (2 * Npos m')%N. rewrite Hm. lia.
      * lia.
      * intros Hlt. apply Hodd. lia.
    + injection H as <- <-. split; [| split]; [simpl; lia | lia |].
      intros _. reflexivity.
Qed.

(** X7.  The converter of a Decimal field never fails on a float and
    converts a finite one exactly: with the float [m * 2^e] and the
    decimal [c * 10^x] that it returns, the sign is kept, [x] is zero or
    negative, and [c * 10^x = m * 2^e] (stated with the negative powers
    moved to the other side).  The exponent is as large as it can be:
    when it is negative the coefficient is odd. *)
Theorem Decimal_of_float_is_exact (default : default_arg)
    (required repr cmp : bool) (key : option string)
    (metadata : option loc) (h : heap) :
  let d := (DecimalField default required repr cmp key metadata h).1 in
  (forall f, exists dec, run_converter d (VFloat f) = Ok (VDecimal dec))
  /\ forall (s : bool) (m : positive) (e : Z),
       exists (c : N) (x : Z),
         run_converter d (VFloat (FFinite s m e))
         = Ok (VDecimal (DFinite s c x))
         /\ x <= 0
         /\ (0 <= e -> x = 0)
         /\ (c * 2 ^ Z.to_N (- e)
             = Npos m * 2 ^ Z.to_N e * 10 ^ Z.to_N (- x))%N
         /\ (x < 0 -> N.odd c = true).
Proof.
  split.
  - intros f. rewrite DecimalField_run_converter. eexists. reflexivity.
  - intros s m e. rewrite DecimalField_run_converter.
    cbn [DecimalCtor.Decimal_new mbind result_bind rbind].
    unfold DecimalCtor.from_float.
    destruct (0 <=? e) eqn:He.
    + apply Z.leb_le in He.
      exists (Npos m * 2 ^ Z.to_N e)%N, 0.
      split; [reflexivity |]. split; [lia |]. split; [reflexivity |].
      split; [| lia].
      replace (Z.to_N (- e)) with 0%N by lia.
      replace (Z.to_N (- 0)) with 0%N by lia.
      rewrite !N.pow_0_r. lia.
    + apply Z.leb_gt in He.
      destruct (DecimalCtor.strip_twos (Z.to_nat (- e)) m) as [t n] eqn:E.
      destruct (strip_twos_spec _ _ _ _ E) as [Hm [Ht Hodd]].
      set (k := - e - Z.of_nat t).
      assert (Hk : 0 <= k) by (unfold k; lia).
      exists (Npos n * 5 ^ Z.to_N k)%N, (- k).
      split; [reflexivity |]. split; [lia |]. split; [lia |]. split.
      * replace (Z.to_N e) with 0%N by lia.
        replace (Z.to_N (- - k)) with (Z.to_N k) by (f_equal; lia).
        replace (Z.to_N (- e)) with (Z.to_N k + N.of_nat t)%N
          by (unfold k; lia).
        rewrite Hm, N.pow_add_r, N.pow_0_r.
        change 10%N with (2 * 5)%N. rewrite N.pow_mul_l. lia.
      * intros Hneg.
        assert (Hn : N.odd (Npos n) = true) by (apply Hodd; unfold k in *; lia).
        rewrite N.odd_mul, Hn, N.odd_pow by lia. reflexivity.
Qed.

(** *** Numeric strings *)

Lemma span_digits_spec (l : list ascii) :
  forall ds rest, DecimalCtor.span_digits l = (ds, rest) ->
    l = (ds ++ rest)%list /\ forallb DecimalCtor.is_digit ds = true.
Proof.
  induction l as [| c l IH]; intros ds rest H; simpl in H.
  - injection H as <- <-. split; reflexivity.
  - destruct (DecimalCtor.is_digit c) eqn:Ec.
    + destruct (DecimalCtor.span_digits l) as [ds' rest'] eqn:E.
      injection H as <- <-. destruct (IH ds' rest' eq_refl) as [-> Hd].
      split; [reflexivity |]. simpl. rewrite Ec, Hd. reflexivity.
    + injection H as <- <-. split; reflexivity.
Qed.

Lemma span_digits_all (ds : list ascii) :
  forallb DecimalCtor.is_digit ds = true ->
  DecimalCtor.span_digits ds = (ds, []).
Proof.
  induction ds as [| c ds IH]; intros H; simpl in *.
  - reflexivity.
  - apply andb_true_iff in H. destruct H as [Hc Hds].
    rewrite Hc, (IH Hds). reflexivity.
Qed.

(** A digit is neither white space, nor an underscore, nor a sign. *)
Lemma is_digit_plain (c : ascii) :
  DecimalCtor.is_digit c = true ->
  DecimalCtor.is_space c = false
  /\ Ascii.eqb c "_" = false
  /\ DecimalCtor.take_sign [c] = (false, [c]).
Proof.
  destruct c as [[] [] [] [] [] [] [] []]; intros H;
    try discriminate H; repeat split.
Qed.

Lemma take_sign_digits (c : ascii) (l : list ascii) :
  DecimalCtor.is_digit c = true ->
  DecimalCtor.take_sign (c :: l) = (false, c :: l).
Proof.
  destruct c as [[] [] [] [] [] [] [] []]; intros H;
    try discriminate H; reflexivity.
Qed.

Lemma lstrip_spaces_app (ws l : list ascii) :
  forallb DecimalCtor.is_space ws = true ->
  DecimalCtor.lstrip (ws ++ l) = DecimalCtor.lstrip l.
Proof.
  induction ws as [| c ws IH]; intros H; simpl in *.
  - reflexivity.
  - apply andb_true_iff in H. destruct H as [Hc Hws].
    rewrite Hc. exact (IH Hws).
Qed.

Lemma lstrip_app (l r : list ascii) :
  DecimalCtor.lstrip l <> [] ->
  DecimalCtor.lstrip (l ++ r) = (DecimalCtor.lstrip l ++ r)%list.
Proof.
  induction l as [| c l IH]; intros H; simpl in *.
  - congruence.
  - destruct (DecimalCtor.is_space c); [exact (IH H) | reflexivity].
Qed.

Lemma lstrip_nil_spaces (l : list ascii) :
  DecimalCtor.lstrip l = [] -> forallb DecimalCtor.is_space l = true.
Proof.
  induction l as [| c l IH]; intros H; simpl in *.
  - reflexivity.
  - destruct (DecimalCtor.is_space c); [exact (IH H) | discriminate].
Qed.

Lemma forallb_rev {A} (f : A -> bool) (l : list A) :
  forallb f l = true -> forallb f (rev l) = true.
Proof.
  intros H. apply forallb_forall. intros x Hx.
  apply in_rev in Hx. exact (proj1 (forallb_forall f l) H x Hx).
Qed.

(** [strip] takes the white space off both ends. *)
Lemma strip_spaces (ws1 l ws2 : list ascii) :
  forallb DecimalCtor.is_space ws1 = true ->
  forallb DecimalCtor.is_space ws2 = true ->
  DecimalCtor.strip (ws1 ++ l ++ ws2) = DecimalCtor.strip l.
Proof.
  intros H1 H2. unfold DecimalCtor.strip.
  rewrite (lstrip_spaces_app ws1 _ H1).
  destruct (DecimalCtor.lstrip l) as [| c l'] eqn:E.
  - apply lstrip_nil_spaces in E.
    assert (Hall : forallb DecimalCtor.is_space (l ++ ws2) = true).
    { rewrite forallb_app, E, H2. reflexivity. }
    rewrite <- (app_nil_r (l ++ ws2)),
      (lstrip_spaces_app (l ++ ws2) [] Hall).
    reflexivity.
  - rewrite lstrip_app by (rewrite E; discriminate).
    rewrite E, rev_app_distr.
    rewrite (lstrip_spaces_app (rev ws2) _ (forallb_rev _ _ H2)).
    reflexivity.
Qed.

(** [strip] leaves a string alone that neither starts nor ends with
    white space. *)
Lemma strip_noop (l : list ascii) :
  (forall c l', l = c :: l' -> DecimalCtor.is_space c = false) ->
  (forall c l', l = (l' ++ [c])%list -> DecimalCtor.is_space c = false) ->
  DecimalCtor.strip l = l.
Proof.
  intros Hhd Hlast. unfold DecimalCtor.strip.
  destruct l as [| c l']; [reflexivity |].
  assert (Hx : DecimalCtor.lstrip (c :: l') = c :: l').
  { cbn [DecimalCtor.lstrip]. rewrite (Hhd c l' eq_refl). reflexivity. }
  rewrite Hx.
  destruct (exists_last (l := c :: l')) as [l'' [c2 E]]; [discriminate |].
  rewrite E at 1. rewrite rev_unit. cbn [DecimalCtor.lstrip].
  rewrite (Hlast c2 l'' E), <- rev_unit, <- E. apply rev_involutive.
Qed.

Lemma filter_all {A} (f : A -> bool) (l : list A) :
  forallb f l = true -> List.filter f l = l.
Proof.
  induction l as [| x l IH]; intros H; simpl in *.
  - reflexivity.
  - apply andb_true_iff in H. destruct H as [Hx Hl].
    rewrite Hx, (IH Hl). reflexivity.
Qed.

Lemma digits_not_space (ds : list ascii) (c : ascii) :
  forallb DecimalCtor.is_digit ds = true -> In c ds ->
  DecimalCtor.is_space c = false /\ negb (Ascii.eqb c "_") = true.
Proof.
  intros H Hin.
  pose proof (proj1 (forallb_forall _ _) H c Hin) as Hc.
  destruct (is_digit_plain c Hc) as [Hs [Hu _]]. rewrite Hu.
  split; [exact Hs | reflexivity].
Qed.

(** A string that is an optional sign followed by digits only. *)
Lemma from_string_plain (l ds : list ascii) (sg : bool) :
  ds <> [] ->
  forallb DecimalCtor.is_digit ds = true ->
  DecimalCtor.strip l = l ->
  DecimalCtor.remove_underscores l = l ->
  DecimalCtor.take_sign l = (sg, ds) ->
  DecimalCtor.from_string (string_of_list_ascii l)
  = Some (DFinite sg (DecimalCtor.digits_to_N ds) 0).
Proof.
  intros Hne Hd Hstrip Hund Hsign. unfold DecimalCtor.from_string.
  rewrite list_ascii_of_string_of_list_ascii, Hstrip, Hund, Hsign.
  unfold DecimalCtor.parse_number. rewrite (span_digits_all ds Hd).
  destruct ds as [| c ds']; [congruence |].
  cbn [DecimalCtor.parse_exponent]. rewrite app_nil_r. reflexivity.
Qed.

Lemma signed_digits_plain (p ds : list ascii) :
  ds <> [] ->
  forallb DecimalCtor.is_digit ds = true ->
  p = [] \/ p = ["-"%char] \/ p = ["+"%char] ->
  DecimalCtor.strip (p ++ ds) = (p ++ ds)%list
  /\ DecimalCtor.remove_underscores (p ++ ds) = (p ++ ds)%list.
Proof.
  intros Hne Hd Hp.
  assert (Hin : forall c, In c (p ++ ds) ->
            DecimalCtor.is_space c = false
            /\ negb (Ascii.eqb c "_") = true).
  { intros c Hc. apply in_app_or in Hc. destruct Hc as [Hc | Hc].
    - destruct Hp as [-> | [-> | ->]]; simpl in Hc;
        intuition (subst; split; reflexivity).
    - exact (digits_not_space ds c Hd Hc). }
  split.
  - apply strip_noop.
    + intros c l' E. apply Hin. rewrite E. left. reflexivity.
    + intros c l' E. apply Hin. rewrite E. apply in_or_app. right. left.
      reflexivity.
  - apply filter_all. apply forallb_forall. intros c Hc.
    apply (Hin c Hc).
Qed.

(** X8.  The converter of a Decimal field takes a string of digits to
    the decimal with that coefficient and exponent 0, the same decimal
    as it makes of the integer that the digits denote; a leading [-]
    sets the sign of the decimal (so ["-0"] is the negative zero), a
    leading [+] changes nothing. *)
Theorem Decimal_of_digit_string (default : default_arg)
    (required repr cmp : bool) (key : option string)
    (metadata : option loc) (h : heap) (ds : list ascii) :
  ds <> [] ->
  forallb DecimalCtor.is_digit ds = true ->
  let d := (DecimalField default required repr cmp key metadata h).1 in
  let n := DecimalCtor.digits_to_N ds in
  run_converter d (VStr (string_of_list_ascii ds))
  = Ok (VDecimal (DFinite false n 0))
  /\ run_converter d (VStr (string_of_list_ascii ds))
     = run_converter d (VInt (Z.of_N n))
  /\ run_converter d (VStr (string_of_list_ascii ("-"%char :: ds)))
     = Ok (VDecimal (DFinite true n 0))
  /\ run_converter d (VStr (string_of_list_ascii ("+"%char :: ds)))
     = Ok (VDecimal (DFinite false n 0)).
Proof.
  intros Hne Hd d n. unfold d.
  rewrite !DecimalField_run_converter.
  cbn [DecimalCtor.Decimal_new].
  destruct (signed_digits_plain [] ds Hne Hd (or_introl eq_refl))
    as [S0 U0].
  destruct (signed_digits_plain ["-"%char] ds Hne Hd
              (or_intror (or_introl eq_refl))) as [S1 U1].
  destruct (signed_digits_plain ["+"%char] ds Hne Hd
              (or_intror (or_intror eq_refl))) as [S2 U2].
  assert (T0 : DecimalCtor.take_sign ds = (false, ds)).
  { destruct ds as [| c ds']; [congruence |].
    apply take_sign_digits. simpl in Hd. apply andb_true_iff in Hd.
    exact (proj1 Hd). }
  rewrite (from_string_plain ds ds false Hne Hd S0 U0 T0).
  rewrite (from_string_plain ("-"%char :: ds) ds true Hne Hd S1 U1 eq_refl).
  rewrite (from_string_plain ("+"%char :: ds) ds false Hne Hd S2 U2 eq_refl).
  repeat split.
  unfold DecimalCtor.from_int.
  replace (Z.of_N n <? 0) with false by (symmetry; apply Z.ltb_ge; lia).
  rewrite Zabs2N.id. reflexivity.
Qed.

Lemma Decimal_of_digit_string_witness :
  let ds := list_ascii_of_string "0042" in
  ds <> []
  /\ forallb DecimalCtor.is_digit ds = true
  /\ let d := (DecimalField NOTHING true true true None None ∅).1 in
     let n := DecimalCtor.digits_to_N ds in
     run_converter d (VStr (string_of_list_ascii ds))
     = Ok (VDecimal (DFinite false n 0))
     /\ run_converter d (VStr (string_of_list_ascii ds))
        = run_converter d (VInt (Z.of_N n))
     /\ run_converter d (VStr (string_of_list_ascii ("-"%char :: ds)))
        = Ok (VDecimal (DFinite true n 0))
     /\ run_converter d (VStr (string_of_list_ascii ("+"%char :: ds)))
        = Ok (VDecimal (DFinite false n 0)).
Proof.
  intros ds.
  assert (Hne : ds <> []) by discriminate.
  assert (Hd : forallb DecimalCtor.is_digit ds = true) by reflexivity.
  split; [exact Hne |]. split; [exact Hd |].
  apply (Decimal_of_digit_string NOTHING true true true None None ∅
           ds Hne Hd).
Defined.

(** X9.  White space around a numeric string is ignored by the
    converter of a Decimal field: the string converts as it does
    without it, to the same decimal or to the same error. *)
Theorem Decimal_ignores_surrounding_white_space (default : default_arg)
    (required repr cmp : bool) (key : option string)
    (metadata : option loc) (h : heap) (ws1 l ws2 : list ascii) :
  forallb DecimalCtor.is_space ws1 = true ->
  forallb DecimalCtor.is_space ws2 = true ->
  let d := (DecimalField default required repr cmp key metadata h).1 in
  run_converter d (VStr (string_of_list_ascii (ws1 ++ l ++ ws2)))
  = run_converter d (VStr (string_of_list_ascii l)).
Proof.
  intros H1 H2 d. unfold d. rewrite !DecimalField_run_converter.
  cbn [DecimalCtor.Decimal_new]. unfold DecimalCtor.from_string.
  rewrite !list_ascii_of_string_of_list_ascii.
  rewrite (strip_spaces ws1 l ws2 H1 H2). reflexivity.
Qed.

Lemma Decimal_ignores_surrounding_white_space_witness :
  let ws1 := list_ascii_of_string "  " in
  let l := list_ascii_of_string "-1.5e3" in
  let ws2 := [ascii_of_nat 10] in
  forallb DecimalCtor.is_space ws1 = true
  /\ forallb DecimalCtor.is_space ws2 = true
  /\ let d := (DecimalField NOTHING true true true None None ∅).1 in
     run_converter d (VStr (string_of_list_ascii (ws1 ++ l ++ ws2)))
     = run_converter d (VStr (string_of_list_ascii l)).
Proof.
  intros ws1 l ws2. split; [reflexivity |]. split; [reflexivity |].
  apply (Decimal_ignores_surrounding_white_space NOTHING true true true
           None None ∅ ws1 l ws2); reflexivity.
Defined.

Lemma lstrip_In (l : list ascii) (c : ascii) :
  In c (DecimalCtor.lstrip l) -> In c l.
Proof.
  induction l as [| x l IH]; simpl; [tauto |].
  destruct (DecimalCtor.is_space x); [| tauto].
  intros H. right. exact (IH H).
Qed.

Lemma strip_In (l : list ascii) (c : ascii) :
  In c (DecimalCtor.strip l) -> In c l.
Proof.
  unfold DecimalCtor.strip. intros H.
  apply in_rev, lstrip_In in H. apply in_rev in H.
  exact (lstrip_In l c H).
Qed.

Lemma take_sign_In (l body : list ascii) (sg : bool) (c : ascii) :
  DecimalCtor.take_sign l = (sg, body) -> In c body -> In c l.
Proof.
  unfold DecimalCtor.take_sign. intros H Hin.
  destruct l as [| x l']; [injection H as <- <-; exact Hin |].
  destruct (Ascii.eqb x "-") eqn:E1; [| destruct (Ascii.eqb x "+") eqn:E2].
  - apply Ascii.eqb_eq in E1. subst x. injection H as <- <-.
    right. exact Hin.
  - apply Ascii.eqb_eq in E2. subst x. injection H as <- <-.
    right. exact Hin.
  - assert (Hb : body = x :: l').
    { destruct x as [[] [] [] [] [] [] [] []];
        try discriminate E1; try discriminate E2;
        injection H as <- <-; reflexivity. }
    rewrite Hb in Hin. exact Hin.
Qed.

(** Without a digit in it, a string has no digit prefix. *)
Lemma span_digits_none (l : list ascii) :
  (forall c, In c l -> DecimalCtor.is_digit c = false) ->
  forall ds rest, DecimalCtor.span_digits l = (ds, rest) ->
    ds = [] /\ rest = l.
Proof.
  intros Hno ds rest H. destruct l as [| c l']; simpl in H.
  - injection H as <- <-. split; reflexivity.
  - rewrite (Hno c (or_introl eq_refl)) in H. injection H as <- <-.
    split; reflexivity.
Qed.

Lemma parse_number_needs_digit (sg : bool) (l : list ascii) :
  (forall c, In c l -> DecimalCtor.is_digit c = false) ->
  DecimalCtor.parse_number sg l = None.
Proof.
  intros Hno. unfold DecimalCtor.parse_number.
  destruct (DecimalCtor.span_digits l) as [ds rest] eqn:E.
  destruct (span_digits_none l Hno ds rest E) as [-> ->].
  destruct l as [| c r]; [reflexivity |].
  destruct (Ascii.eqb c ".") eqn:Ec.
  - apply Ascii.eqb_eq in Ec. subst c.
    destruct (DecimalCtor.span_digits r) as [fr r'] eqn:Er.
    assert (Hr : forall c, In c r -> DecimalCtor.is_digit c = false).
    { intros c Hc. apply Hno. right. exact Hc. }
    destruct (span_digits_none r Hr fr r' Er) as [-> ->]. reflexivity.
  - destruct c as [[] [] [] [] [] [] [] []]; try discriminate Ec;
      reflexivity.
Qed.

Lemma to_lower_digit (c : ascii) :
  DecimalCtor.is_digit (DecimalCtor.to_lower c) = DecimalCtor.is_digit c.
Proof. destruct c as [[] [] [] [] [] [] [] []]; reflexivity. Qed.

Lemma skipn_In {A} (n : nat) (l : list A) (x : A) :
  In x (skipn n l) -> In x l.
Proof.
  intros H. rewrite <- (firstn_skipn n l). apply in_or_app. right. exact H.
Qed.

Lemma parse_special_without_digit (sg : bool) (l : list ascii) :
  (forall c, In c l -> DecimalCtor.is_digit c = false) ->
  DecimalCtor.parse_special sg l = None
  \/ DecimalCtor.parse_special sg l = Some (DInf sg)
  \/ exists signal, DecimalCtor.parse_special sg l = Some (DNaN sg signal 0).
Proof.
  intros Hno. unfold DecimalCtor.parse_special.
  set (low := List.map DecimalCtor.to_lower l).
  assert (Hlow : forall c, In c low -> DecimalCtor.is_digit c = false).
  { intros c Hc. apply in_map_iff in Hc. destruct Hc as [c0 [<- Hc0]].
    rewrite to_lower_digit. exact (Hno c0 Hc0). }
  destruct (_ || _); [right; left; reflexivity |].
  assert (Hbody : forall signal body,
            (forall c, In c body -> In c low) ->
            match DecimalCtor.starts_with (list_ascii_of_string "nan") body
            with
            | Some diag =>
                match DecimalCtor.span_digits diag with
                | (ds, []) => Some (DNaN sg signal (DecimalCtor.digits_to_N ds))
                | _ => None
                end
            | None => None
            end = None
            \/ match DecimalCtor.starts_with (list_ascii_of_string "nan") body
               with
               | Some diag =>
                   match DecimalCtor.span_digits diag with
                   | (ds, []) =>
                       Some (DNaN sg signal (DecimalCtor.digits_to_N ds))
                   | _ => None
                   end
               | None => None
               end = Some (DNaN sg signal 0)).
  { intros signal body Hsub. unfold DecimalCtor.starts_with.
    destruct (DecimalCtor.list_ascii_eqb _ _); [| left; reflexivity].
    set (diag := skipn _ body).
    assert (Hdiag : forall c, In c diag -> DecimalCtor.is_digit c = false).
    { intros c Hc. apply Hlow, Hsub. exact (skipn_In _ _ _ Hc). }
    destruct (DecimalCtor.span_digits diag) as [ds rest] eqn:E.
    destruct (span_digits_none diag Hdiag ds rest E) as [-> ->].
    destruct diag; [right; reflexivity | left; reflexivity]. }
  destruct low as [| c r] eqn:El.
  - destruct (Hbody false [] (fun c Hc => Hc)) as [-> | ->];
      [left; reflexivity | right; right; eexists; reflexivity].
  - destruct (Ascii.eqb c "s") eqn:Ec.
    + apply Ascii.eqb_eq in Ec. subst c.
      destruct (Hbody true r (fun c Hc => or_intror Hc)) as [-> | ->];
        [left; reflexivity | right; right; eexists; reflexivity].
    + assert (E : (let '(signal, body) :=
                     match c :: r with
                     | "s"%char :: r0 => (true, r0)
                     | _ => (false, c :: r)
                     end in
                   match DecimalCtor.starts_with
                           (list_ascii_of_string "nan") body with
                   | Some diag =>
                       match DecimalCtor.span_digits diag with
                       | (ds, []) =>
                           Some (DNaN sg signal (DecimalCtor.digits_to_N ds))
                       | _ => None
                       end
                   | None => None
                   end)
                  = match DecimalCtor.starts_with
                            (list_ascii_of_string "nan") (c :: r) with
                    | Some diag =>
                        match DecimalCtor.span_digits diag with
                        | (ds, []) =>
                            Some (DNaN sg false (DecimalCtor.digits_to_N ds))
                        | _ => None
                        end
                    | None => None
                    end).
      { destruct c as [[] [] [] [] [] [] [] []]; try discriminate Ec;
          reflexivity. }
      rewrite E.
      destruct (Hbody false (c :: r) (fun c Hc => Hc)) as [-> | ->];
        [left; reflexivity | right; right; eexists; reflexivity].
Qed.

(** X10.  The converter of a Decimal field never makes a finite number
    of an ASCII string that has no digit in it: such a string is an
    [InvalidOperation] error, or an infinity, or a NaN without
    payload. *)
Theorem Decimal_of_string_needs_a_digit (default : default_arg)
    (required repr cmp : bool) (key : option string)
    (metadata : option loc) (h : heap) (s : string) :
  (forall c, In c (list_ascii_of_string s) ->
             (N_of_ascii c < 128)%N /\ DecimalCtor.is_digit c = false) ->
  let d := (DecimalField default required repr cmp key metadata h).1 in
  run_converter d (VStr s) = Err (ConversionError InvalidOperation)
  \/ (exists sg, run_converter d (VStr s) = Ok (VDecimal (DInf sg)))
  \/ (exists sg signal,
        run_converter d (VStr s) = Ok (VDecimal (DNaN sg signal 0))).
Proof.
  intros Hascii d. unfold d. rewrite !DecimalField_run_converter.
  assert (Hno : forall c, In c (list_ascii_of_string s) ->
                          DecimalCtor.is_digit c = false).
  { intros c Hc. exact (proj2 (Hascii c Hc)). }
  cbn [DecimalCtor.Decimal_new]. unfold DecimalCtor.from_string.
  set (l := DecimalCtor.remove_underscores
              (DecimalCtor.strip (list_ascii_of_string s))).
  destruct (DecimalCtor.take_sign l) as [sg body] eqn:Es.
  assert (Hbody : forall c, In c body -> DecimalCtor.is_digit c = false).
  { intros c Hc. apply Hno, strip_In.
    apply (take_sign_In l body sg c Es) in Hc.
    unfold l, DecimalCtor.remove_underscores in Hc.
    apply filter_In in Hc. exact (proj1 Hc). }
  rewrite (parse_number_needs_digit sg body Hbody).
  destruct (parse_special_without_digit sg body Hbody)
    as [-> | [-> | [signal ->]]].
  - left. reflexivity.
  - right. left. exists sg. reflexivity.
  - right. right. exists sg, signal. reflexivity.
Qed.

Lemma Decimal_of_string_needs_a_digit_witness :
  (forall c, In c (list_ascii_of_string "-Infinity") ->
             (N_of_ascii c < 128)%N /\ DecimalCtor.is_digit c = false)
  /\ let d := (DecimalField NOTHING true true true None None ∅).1 in
     run_converter d (VStr "-Infinity")
     = Err (ConversionError InvalidOperation)
     \/ (exists sg, run_converter d (VStr "-Infinity")
                    = Ok (VDecimal (DInf sg)))
     \/ (exists sg signal,
           run_converter d (VStr "-Infinity")
           = Ok (VDecimal (DNaN sg signal 0))).
Proof.
  assert (Hno : forall c, In c (list_ascii_of_string "-Infinity") ->
                  (N_of_ascii c < 128)%N /\ DecimalCtor.is_digit c = false).
  { intros c Hc. simpl in Hc.
    intuition (subst; (reflexivity || (simpl; lia))). }
  split; [exact Hno |].
  apply (Decimal_of_string_needs_a_digit NOTHING true true true None None
           ∅ "-Infinity" Hno).
Defined.

(** X11.  A blank string, empty or of white space only, is an
    [InvalidOperation] error for the converter of a Decimal field. *)
Theorem Decimal_of_blank_string_fails (default : default_arg)
    (required repr cmp : bool) (key : option string)
    (metadata : option loc) (h : heap) (s : string) :
  forallb DecimalCtor.is_space (list_ascii_of_string s) = true ->
  let d := (DecimalField default required repr cmp key metadata h).1 in
  run_converter d (VStr s) = Err (ConversionError InvalidOperation).
Proof.
  intros Hws d. unfold d. rewrite !DecimalField_run_converter.
  cbn [DecimalCtor.Decimal_new]. unfold DecimalCtor.from_string.
  pose proof (strip_spaces (list_ascii_of_string s) [] [] Hws eq_refl)
    as E.
  rewrite app_nil_r in E. rewrite E. reflexivity.
Qed.

Lemma Decimal_of_blank_string_fails_witness :
  forallb DecimalCtor.is_space (list_ascii_of_string "") = true
  /\ let d := (DecimalField NOTHING false true true None None ∅).1 in
     run_converter d (VStr "") = Err (ConversionError InvalidOperation).
Proof.
  split; [reflexivity |].
  apply (Decimal_of_blank_string_fails NOTHING false true true None None
           ∅ ""). reflexivity.
Defined.

(** ** What [key] and [metadata] can change *)

(** X12.  The [key] and [metadata] arguments of a constructor, and the
    store, bear on nothing but the metadata of the descriptor: two calls
    of the same constructor that differ only in them return descriptors
    with the same default, validator, converter, [repr], [cmp] and
    type. *)
Theorem key_and_metadata_touch_only_the_metadata {env : PyEnv} (k : kind)
    (default : default_arg) (required repr cmp : bool)
    (key1 key2 : option string) (metadata1 metadata2 : option loc)
    (h1 h2 : heap) :
  let d1 := (make_field k
               (mk_kwargs default required repr cmp key1 metadata1) h1).1 in
  let d2 := (make_field k
               (mk_kwargs default required repr cmp key2 metadata2) h2).1 in
  a_default d1 = a_default d2
  /\ a_validator d1 = a_validator d2
  /\ a_converter d1 = a_converter d2
  /\ a_repr d1 = a_repr d2
  /\ a_cmp d1 = a_cmp d2
  /\ a_type d1 = a_type d2.
Proof.
  destruct k; cbn [make_field];
    unfold BooleanField, ChildField, DateField, DateTimeField, TimeField,
      FloatField, IntegerField, MappingField, RegexField, SequenceField,
      SetField, StringField, URLField, UUIDField, DecimalField;
    repeat match goal with
           | |- context [_field_metadata ?m ?p ?h] =>
               destruct (_field_metadata m p h) as [? ?]
           end;
    repeat split.
Qed.
